(** * India petroleum sales dashboard: the loader and the aggregates

    A shallow embedding of [streamlit_app.py]: the function [load_data]
    (read sheet, drop the total rows, melt, derive the year, coerce the sales,
    drop incomplete rows) and the derived views computed from its result
    (top and bottom K of a year, the four summary figures of a state, the
    year-over-year growth of a state).

    Data frames are lists of rows in frame order.  A sales figure is the
    rational number its binary64 stands for; the values of IEEE arithmetic
    that are not numbers (NaN and the two infinities) are constructors of
    [float64].  The arithmetic of the growth computation rounds every result
    to binary64; comparisons, maxima and minima need no rounding, and the
    mean is taken exactly.  Python exceptions are the constructors of
    [error]. *)

From Stdlib Require Import List ZArith QArith Qminmax String Ascii Bool Lia.
From Stdlib Require Import Sorting.Sorted Sorting.Permutation.
From Stdlib Require Floats.SpecFloat.
Import ListNotations.

Local Open Scope string_scope.
Local Open Scope Z_scope.

(** ** Exceptions and results *)

Inductive error : Type :=
| KeyError
| ValueError
| IndexError
| AttributeError.

Inductive result (A : Type) : Type :=
| Ok (a : A)
| Err (e : error).

Arguments Ok {A} a.
Arguments Err {A} e.

Definition bind {A B : Type} (m : result A) (f : A -> result B) : result B :=
  match m with
  | Ok a => f a
  | Err e => Err e
  end.

Notation "x <- m ;; k" := (bind m (fun x => k))
  (at level 61, m at next level, right associativity).


(** [[f(x) for x in l]] where [f] may raise: the first exception wins. *)
Fixpoint map_result {A B : Type} (f : A -> result B) (l : list A) : result (list B) :=
  match l with
  | [] => Ok []
  | x :: l' => y <- f x ;; ys <- map_result f l' ;; Ok (y :: ys)
  end.

(** ** Python strings *)

Module PyStr.

(** [str.isspace] on the ASCII range. *)
Definition is_space (c : ascii) : bool :=
  let n := nat_of_ascii c in
  ((9 <=? n) && (n <=? 13) || (28 <=? n) && (n <=? 32))%nat.

Fixpoint lstrip (s : string) : string :=
  match s with
  | EmptyString => EmptyString
  | String c s' => if is_space c then lstrip s' else s
  end.

Fixpoint rstrip (s : string) : string :=
  match s with
  | EmptyString => EmptyString
  | String c s' =>
      match rstrip s' with
      | EmptyString => if is_space c then EmptyString else String c EmptyString
      | r => String c r
      end
  end.

(** [s.strip()] *)
Definition strip (s : string) : string := rstrip (lstrip s).

(** [s[:n]] *)
Definition take (n : nat) (s : string) : string := substring 0 n s.

Fixpoint starts_with (pat s : string) : bool :=
  match pat, s with
  | EmptyString, _ => true
  | String a pat', String b s' => Ascii.eqb a b && starts_with pat' s'
  | String _ _, EmptyString => false
  end.

(** [pat in s], which is also [re.search] for a pattern without special
    characters. *)
Fixpoint contains (pat s : string) : bool :=
  starts_with pat s ||
  match s with
  | EmptyString => false
  | String _ s' => contains pat s'
  end.

Definition lower_char (c : ascii) : ascii :=
  let n := nat_of_ascii c in
  if ((65 <=? n) && (n <=? 90))%nat then ascii_of_nat (n + 32) else c.

(** [s.lower()] on the ASCII range. *)
Fixpoint lower (s : string) : string :=
  match s with
  | EmptyString => EmptyString
  | String c s' => String (lower_char c) (lower s')
  end.

Definition is_digit (c : ascii) : bool :=
  let n := nat_of_ascii c in ((48 <=? n) && (n <=? 57))%nat.

Definition digit_value (c : ascii) : Z := Z.of_nat (nat_of_ascii c) - 48.

(** The digits of an integer literal: decimal digits, with single underscores
    allowed between two digits.  [after_digit] tells whether the previous
    character was a digit. *)
Fixpoint int_digits (acc : Z) (after_digit : bool) (s : string) : option Z :=
  match s with
  | EmptyString => if after_digit then Some acc else None
  | String c s' =>
      if is_digit c then int_digits (10 * acc + digit_value c) true s'
      else if Ascii.eqb c "_"%char && after_digit then int_digits acc false s'
      else None
  end.

(** [int(s)] for an ASCII string: surrounding white space is ignored, one sign
    is allowed; [None] stands for the [ValueError]. *)
Definition int (s : string) : option Z :=
  match strip s with
  | String "+" d => int_digits 0 false d
  | String "-" d => option_map Z.opp (int_digits 0 false d)
  | d => int_digits 0 false d
  end.

End PyStr.

(** ** The sheet read by [pd.read_excel]

    The sheet has the column of the state names and one column per year.  A
    cell of a year column holds a number, a text or nothing; a cell of the
    state column holds a text or nothing. *)

Inductive cell : Type :=
| CNum (q : Q)
| CText (s : string)
| CEmpty.

Record row : Type := mkRow {
  state_ut : option string;
  values : list cell
}.

Record sheet : Type := mkSheet {
  id_label : string;
  year_labels : list string;
  rows : list row
}.

(** A row of the melted frame: columns [STATE/UT], [Year] and [Sales]. *)
Record melted (Y V : Type) : Type := mkMelted {
  m_state : option string;
  m_year : Y;
  m_sales : V
}.

Arguments mkMelted {Y V} _ _ _.
Arguments m_state {Y V} _.
Arguments m_year {Y V} _.
Arguments m_sales {Y V} _.

(** A record of the long table. *)
Record record : Type := mkRecord {
  region : string;
  year : Z;
  sales : Q
}.

Section Loader.

(** How [pd.to_numeric] reads a text cell as a number ([None]: it does not
    parse).  The grammar belongs to pandas; the loader is correct for any. *)
Variable str_to_float : string -> option Q.

(** The alternatives of the pattern ['Region|Total|REGION|ALL INDIA']. *)
Definition total_patterns : list string :=
  ["Region"; "Total"; "REGION"; "ALL INDIA"].

(** [df['STATE/UT'].str.contains(pattern, na=False)] for one cell: a search,
    sensitive to case; a missing label gives [False]. *)
Definition str_contains (lab : option string) : bool :=
  match lab with
  | Some s => existsb (fun pat => PyStr.contains pat s) total_patterns
  | None => false
  end.

(** [df[~mask]] *)
Definition drop_totals (rs : list row) : list row :=
  filter (fun r => negb (str_contains (state_ut r))) rs.

(** The values of column number [j], one per row. *)
Definition column_values (j : nat) (label : string) (rs : list row)
  : list (melted string cell) :=
  map (fun r => mkMelted (state_ut r) label (nth j (values r) CEmpty)) rs.

(** [df.melt(id_vars=['STATE/UT'], value_vars=year_columns, ...)]: column
    after column, and inside a column row after row.  [j] is the number of the
    first column of [labels]. *)
Fixpoint melt_from (j : nat) (labels : list string) (rs : list row)
  : list (melted string cell) :=
  match labels with
  | [] => []
  | label :: labels' => column_values j label rs ++ melt_from (S j) labels' rs
  end.

Definition melt (labels : list string) (rs : list row) : list (melted string cell) :=
  melt_from 0 labels rs.

(** [.str[:4].astype(int)] for one element of the [Year] column. *)
Definition year_of_label (label : string) : result Z :=
  match PyStr.int (PyStr.take 4 label) with
  | Some y => Ok y
  | None => Err ValueError
  end.

Definition with_year (m : melted string cell) : result (melted Z cell) :=
  y <- year_of_label (m_year m) ;; Ok (mkMelted (m_state m) y (m_sales m)).

(** [pd.to_numeric(..., errors='coerce')] for one cell; [None] is NaN. *)
Definition to_numeric (c : cell) : option Q :=
  match c with
  | CNum q => Some q
  | CText s => str_to_float s
  | CEmpty => None
  end.

Definition with_sales (m : melted Z cell) : melted Z (option Q) :=
  mkMelted (m_state m) (m_year m) (to_numeric (m_sales m)).

(** A row without a missing value is a record of the long table. *)
Definition complete (m : melted Z (option Q)) : option record :=
  match m_state m, m_sales m with
  | Some s, Some v => Some (mkRecord s (m_year m) v)
  | _, _ => None
  end.

(** [df_melted.dropna()]: the rows that have a missing value in any column
    go; the others keep their index label, which is their position in the
    melted frame (counted from [i]). *)
Fixpoint dropna_from (i : nat) (ms : list (melted Z (option Q)))
  : list (nat * record) :=
  match ms with
  | [] => []
  | m :: ms' =>
      match complete m with
      | Some r => (i, r) :: dropna_from (S i) ms'
      | None => dropna_from (S i) ms'
      end
  end.

Definition dropna (ms : list (melted Z (option Q))) : list (nat * record) :=
  dropna_from 0 ms.

(** The column labels after [df.columns.str.strip()]. *)
Definition year_columns (sh : sheet) : list string :=
  map PyStr.strip (year_labels sh).

(** The frame after line 31: [KeyError] unless a column is named [STATE/UT]
    once the labels are stripped, [AttributeError] when a second one is
    ([.str] does not exist on a frame of two columns); on the remaining path
    the comprehension of [year_columns] keeps every other column. *)
Definition df_melted (sh : sheet) : result (list (melted Z (option Q))) :=
  if negb (String.eqb (PyStr.strip (id_label sh)) "STATE/UT") then Err KeyError
  else if existsb (fun c => String.eqb c "STATE/UT") (year_columns sh) then Err AttributeError
  else
    let df := drop_totals (rows sh) in
    let melted_df := melt (year_columns sh) df in
    melted_df <- map_result with_year melted_df ;;
    Ok (map with_sales melted_df).

(** [load_data()] *)
Definition load_data (sh : sheet) : result (list (nat * record)) :=
  frame <- df_melted sh ;; Ok (dropna frame).

End Loader.

(** The long table the views are computed from: the rows of the loaded frame,
    in frame order. *)
Definition long_table (df : list (nat * record)) : list record := map snd df.

(** ** Floating point values

    A binary64 that is a number is held as the rational it stands for.  An
    operation gives the binary64 nearest to its exact result, ties to even,
    and an infinity beyond the range, as IEEE 754 has it; a division by zero
    gives an infinity or NaN.  The sign of a zero is not kept. *)

Inductive float64 : Type :=
| Fin (q : Q)
| PInf
| NInf
| NaN.

Definition is_nan (x : float64) : bool :=
  match x with
  | NaN => true
  | _ => false
  end.

Definition pow2 (e : Z) : Q :=
  match e with
  | Z0 => 1%Q
  | Zpos p => inject_Z (Z.pow_pos 2 p)
  | Zneg p => (1 # Pos.pow 2 p)%Q
  end.

(** The value of a binary64 given by sign, mantissa and exponent. *)
Definition of_spec_float (x : SpecFloat.spec_float) : float64 :=
  match x with
  | SpecFloat.S754_zero _ => Fin 0
  | SpecFloat.S754_finite s m e =>
      Fin (Qred (inject_Z (if s then Zneg m else Zpos m) * pow2 e))
  | SpecFloat.S754_infinity false => PInf
  | SpecFloat.S754_infinity true => NInf
  | SpecFloat.S754_nan => NaN
  end.

(** The binary64 nearest to a rational: its numerator divided by its
    denominator with the rounded division of the Standard Library's
    specification of IEEE 754, at precision 53 and maximal exponent 1024. *)
Definition round64 (q : Q) : float64 :=
  let r := Qred q in
  match Qnum r with
  | Z0 => Fin 0
  | Zpos n =>
      of_spec_float
        (SpecFloat.SFdiv 53 1024 (SpecFloat.S754_finite false n 0)
           (SpecFloat.S754_finite false (Qden r) 0))
  | Zneg n =>
      of_spec_float
        (SpecFloat.SFdiv 53 1024 (SpecFloat.S754_finite true n 0)
           (SpecFloat.S754_finite false (Qden r) 0))
  end.

Definition fdiv (x y : float64) : float64 :=
  match x, y with
  | Fin a, Fin b =>
      if Qeq_bool b 0 then
        match (a ?= 0)%Q with
        | Eq => NaN
        | Gt => PInf
        | Lt => NInf
        end
      else round64 (a / b)
  | Fin _, PInf | Fin _, NInf => Fin 0
  | PInf, Fin b => if Qle_bool 0 b then PInf else NInf
  | NInf, Fin b => if Qle_bool 0 b then NInf else PInf
  | _, _ => NaN
  end.

Definition fsub (x y : float64) : float64 :=
  match x, y with
  | Fin a, Fin b => round64 (a - b)
  | Fin _, PInf => NInf
  | Fin _, NInf => PInf
  | PInf, Fin _ | PInf, NInf => PInf
  | NInf, Fin _ | NInf, PInf => NInf
  | _, _ => NaN
  end.

Definition fmul (x y : float64) : float64 :=
  match x, y with
  | Fin a, Fin b => round64 (a * b)
  | Fin a, PInf | PInf, Fin a =>
      match (a ?= 0)%Q with
      | Eq => NaN
      | Gt => PInf
      | Lt => NInf
      end
  | Fin a, NInf | NInf, Fin a =>
      match (a ?= 0)%Q with
      | Eq => NaN
      | Gt => NInf
      | Lt => PInf
      end
  | PInf, PInf | NInf, NInf => PInf
  | PInf, NInf | NInf, PInf => NInf
  | _, _ => NaN
  end.

(** ** Sorting as pandas does it *)

Section StableSort.

Context {A : Type} (le : A -> A -> bool).

(** [x] goes in front of the first element it is not greater than, hence in
    front of its equals: an element of the frame stays ahead of the equal
    elements that follow it. *)
Fixpoint insert (x : A) (l : list A) : list A :=
  match l with
  | [] => [x]
  | y :: l' => if le x y then x :: l else y :: insert x l'
  end.

Fixpoint stable_sort (l : list A) : list A :=
  match l with
  | [] => []
  | x :: l' => insert x (stable_sort l')
  end.

End StableSort.

Section SortedIndex.

Context {A : Type} (cmp : A -> A -> comparison).

Fixpoint insert_uniq (x : A) (l : list A) : list A :=
  match l with
  | [] => [x]
  | y :: l' =>
      match cmp x y with
      | Lt => x :: l
      | Eq => l
      | Gt => y :: insert_uniq x l'
      end
  end.

(** The distinct values of [l] in increasing order: the labels of an axis
    made by [pivot]. *)
Definition sort_uniq (l : list A) : list A := fold_right insert_uniq [] l.

End SortedIndex.

(** ** Top and bottom K *)

(** [df[df['Year'] == selected_year]] *)
Definition year_data (df : list record) (selected_year : Z) : list record :=
  filter (fun r => year r =? selected_year) df.

Definition sales_ge (a b : record) : bool := Qle_bool (sales b) (sales a).
Definition sales_le (a b : record) : bool := Qle_bool (sales a) (sales b).

(** [frame.nlargest(n, 'Sales')] with the default [keep='first']: the first
    [n] rows in descending order of the column, equal values in frame order. *)
Definition nlargest (n : nat) (frame : list record) : list record :=
  firstn n (stable_sort sales_ge frame).

(** [frame.nsmallest(n, 'Sales')] *)
Definition nsmallest (n : nat) (frame : list record) : list record :=
  firstn n (stable_sort sales_le frame).

Definition top_k (df : list record) (selected_year : Z) (k : nat) : list record :=
  nlargest k (year_data df selected_year).

Definition bottom_k (df : list record) (selected_year : Z) (k : nat) : list record :=
  nsmallest k (year_data df selected_year).

(** ** Summary statistics of a state *)

(** [frame[frame['STATE/UT'] == selected_state]['Sales']] *)
Definition state_sales (frame : list record) (selected_state : string) : list Q :=
  map sales (filter (fun r => String.eqb (region r) selected_state) frame).

Definition qmax (a b : Q) : Q := if Qle_bool a b then b else a.
Definition qmin (a b : Q) : Q := if Qle_bool a b then a else b.

Definition qsum (l : list Q) : Q := fold_right Qplus 0%Q l.

(** [Series.mean()], [Series.max()], [Series.min()]: NaN on an empty series. *)
Definition series_mean (l : list Q) : float64 :=
  match l with
  | [] => NaN
  | _ :: _ => Fin (Qred (qsum l / inject_Z (Z.of_nat (List.length l))))
  end.

Definition series_max (l : list Q) : float64 :=
  match l with
  | [] => NaN
  | x :: l' => Fin (fold_left qmax l' x)
  end.

Definition series_min (l : list Q) : float64 :=
  match l with
  | [] => NaN
  | x :: l' => Fin (fold_left qmin l' x)
  end.

(** [....values[0]]: the first value, [IndexError] when there is none. *)
Definition current_year_sales (df : list record) (selected_year : Z)
    (selected_state : string) : result Q :=
  match state_sales (year_data df selected_year) selected_state with
  | v :: _ => Ok v
  | [] => Err IndexError
  end.

Definition avg_sales (df : list record) (selected_state : string) : float64 :=
  series_mean (state_sales df selected_state).

Definition max_sales (df : list record) (selected_state : string) : float64 :=
  series_max (state_sales df selected_state).

Definition min_sales (df : list record) (selected_state : string) : float64 :=
  series_min (state_sales df selected_state).

Record summary_stats : Type := mkSummary {
  current : Q;
  average : float64;
  maximum : float64;
  minimum : float64
}.

(** The four figures in the order the script computes them. *)
Definition summary (df : list record) (selected_year : Z) (selected_state : string)
  : result summary_stats :=
  c <- current_year_sales df selected_year selected_state ;;
  Ok (mkSummary c (avg_sales df selected_state) (max_sales df selected_state)
        (min_sales df selected_state)).

(** ** Year-over-year growth *)

(** A frame indexed by year, one column of values per state. *)
Record frame : Type := mkFrame {
  index : list Z;
  columns : list (string * list float64)
}.

Definition same_key (a b : record) : bool :=
  String.eqb (region a) (region b) && (year a =? year b).

Fixpoint has_duplicates (df : list record) : bool :=
  match df with
  | [] => false
  | r :: df' => existsb (same_key r) df' || has_duplicates df'
  end.

(** The value of the pivot at (year, state): NaN where the table has no
    record. *)
Definition pivot_cell (df : list record) (state : string) (y : Z) : float64 :=
  match filter (fun r => String.eqb (region r) state && (year r =? y)) df with
  | r :: _ => Fin (sales r)
  | [] => NaN
  end.

(** [df.pivot(index='Year', columns='STATE/UT', values='Sales')]: a
    [ValueError] when two records have the same year and state; both axes
    sorted. *)
Definition pivot (df : list record) : result frame :=
  if has_duplicates df then Err ValueError
  else
    let years := sort_uniq Z.compare (map year df) in
    let states := sort_uniq String.compare (map region df) in
    Ok (mkFrame years (map (fun s => (s, map (pivot_cell df s) years)) states)).

(** The argument [fill_method] of [pct_change]: ['pad'], which is what the
    call of the script gets, or [None]. *)
Inductive fill_method : Type :=
| Pad
| NoFill.

(** Forward fill: a NaN takes the last value seen; [last] is NaN at the
    start. *)
Fixpoint ffill (last : float64) (l : list float64) : list float64 :=
  match l with
  | [] => []
  | x :: l' =>
      let x' := if is_nan x then last else x in
      x' :: ffill x' l'
  end.

Definition fill (fm : fill_method) (l : list float64) : list float64 :=
  match fm with
  | Pad => ffill NaN l
  | NoFill => l
  end.

(** [data / data.shift(1) - 1] on one column: [combine] stops at the end of
    [data], so its second argument is the column shifted down by one row. *)
Definition pct_change_column (fm : fill_method) (l : list float64) : list float64 :=
  let data := fill fm l in
  map (fun p => fsub (fdiv (fst p) (snd p)) (Fin 1)) (combine data (NaN :: data)).

Definition map_columns (f : list float64 -> list float64) (fr : frame) : frame :=
  mkFrame (index fr) (map (fun c => (fst c, f (snd c))) (columns fr)).

Definition pct_change (fm : fill_method) (fr : frame) : frame :=
  map_columns (pct_change_column fm) fr.

(** [frame * 100] *)
Definition times_100 (fr : frame) : frame :=
  map_columns (map (fun x => fmul x (Fin 100))) fr.

(** [frame[state]]: the column with its index, [KeyError] when absent. *)
Definition getitem (fr : frame) (state : string) : result (list (Z * float64)) :=
  match find (fun c => String.eqb (fst c) state) (columns fr) with
  | Some c => Ok (combine (index fr) (snd c))
  | None => Err KeyError
  end.

(** [series.dropna()] *)
Definition series_dropna (s : list (Z * float64)) : list (Z * float64) :=
  filter (fun p => negb (is_nan (snd p))) s.

(** Lines 129 to 131 with the fill method made explicit. *)
Definition growth_with (fm : fill_method) (df : list record) (selected_state : string)
  : result (list (Z * float64)) :=
  pivot_df <- pivot df ;;
  let growth_df := times_100 (pct_change fm pivot_df) in
  column <- getitem growth_df selected_state ;;
  Ok (series_dropna column).

(** [selected_state_growth]: [pivot_df.pct_change()] fills forward. *)
Definition selected_state_growth (df : list record) (selected_state : string)
  : result (list (Z * float64)) :=
  growth_with Pad df selected_state.

(** The same computation row by row, for one column given by its cells:
    [last] is the value the row above holds after the fill, NaN above the
    first row. *)
Definition fill_value (fm : fill_method) (last x : float64) : float64 :=
  match fm with
  | Pad => if is_nan x then last else x
  | NoFill => x
  end.

Definition growth_percent (x last : float64) : float64 :=
  fmul (fsub (fdiv x last) (Fin 1)) (Fin 100).

Fixpoint growth_rows (fm : fill_method) (cells : Z -> float64) (last : float64)
    (years : list Z) : list (Z * float64) :=
  match years with
  | [] => []
  | y :: years' =>
      let x := fill_value fm last (cells y) in
      (y, growth_percent x last) :: growth_rows fm cells x years'
  end.

(** The key on which [pivot] requires the records to differ. *)
Definition key (r : record) : string * Z := (region r, year r).

(** ** The sidebar and the first lines of the script *)

(** [Series.unique()]: the distinct values in order of first appearance. *)
Fixpoint unique {A : Type} (eqb : A -> A -> bool) (l : list A) : list A :=
  match l with
  | [] => []
  | x :: l' => x :: filter (fun y => negb (eqb x y)) (unique eqb l')
  end.

(** [sorted(df['Year'].unique(), reverse=True)]: the sort of Python is stable
    also when reversed. *)
Definition years (df : list record) : list Z :=
  stable_sort Z.geb (unique Z.eqb (map year df)).

(** [sorted(df["STATE/UT"].unique().tolist())] *)
Definition state_options (df : list record) : list string :=
  stable_sort String.leb (unique String.eqb (map region df)).

(** [st.sidebar.selectbox(label, options)]: the option at the position the
    user has chosen, the first one unless the user moves it; [None] when
    there is no option. *)
Definition selectbox {A : Type} (options : list A) (choice : nat) : option A :=
  nth_error options choice.

(** Line 56: the long table melted once more; every column but [STATE/UT]
    becomes a variable, first [Year], then [Sales], and line 57 finds the
    values to be numbers already. *)
Definition script_df_melted (df : list record) : list (melted string Q) :=
  map (fun r => mkMelted (Some (region r)) "Year" (inject_Z (year r))) df ++
  map (fun r => mkMelted (Some (region r)) "Sales" (sales r)) df.

(** [series.iloc[-1]] *)
Definition iloc_last {A : Type} (l : list A) : result A :=
  match rev l with
  | x :: _ => Ok x
  | [] => Err IndexError
  end.

(** Line 72: [df_melted["Year"].iloc[-1]] *)
Definition latest_year (df : list record) : result string :=
  iloc_last (map m_year (script_df_melted df)).

(** A string of white space only, which [strip] turns into the empty
    string. *)
Fixpoint blank (s : string) : bool :=
  match s with
  | EmptyString => true
  | String c s' => PyStr.is_space c && blank s'
  end.

(** ** Sample data *)

(** A reading of text cells that takes none of them for a number. *)
Definition no_text_number (s : string) : option Q := None.

(** One state, three years, the last cell empty. *)
Definition sheet_goa : sheet :=
  mkSheet "STATE/UT" ["2014-15"; "2015-16"; "2016-17"]
    [mkRow (Some "Goa") [CNum 500; CNum 450; CEmpty]].


(** Total rows spelled in lower case. *)
Definition sheet_lower_totals : sheet :=
  mkSheet "STATE/UT" ["2015-16"]
    [mkRow (Some "total") [CNum 1]; mkRow (Some "region total") [CNum 2]].

(** A state row followed by a row without a label. *)
Definition sheet_unnamed : sheet :=
  mkSheet "STATE/UT" ["2015-16"]
    [mkRow (Some "Goa") [CNum 450]; mkRow None [CNum 7]].

(** The long table of [sheet_goa]. *)
Definition table_goa : list record :=
  [mkRecord "Goa" 2014 500; mkRecord "Goa" 2015 450].

(** A year with sales of zero. *)
Definition table_goa_zero : list record :=
  [mkRecord "Goa" 2015 0].

(** Two years in a row. *)
Definition table_100_150 : list record :=
  [mkRecord "A" 2015 100; mkRecord "A" 2016 150].

(** Two years of zero sales. *)
Definition table_zeros : list record :=
  [mkRecord "A" 2015 0; mkRecord "A" 2016 0].

(** State A has no record in the last year of the table. *)
Definition table_short : list record :=
  [mkRecord "A" 2015 100; mkRecord "A" 2016 150; mkRecord "B" 2017 70].


(** Two records for one state and year. *)
Definition table_twice : list record :=
  [mkRecord "A" 2015 100; mkRecord "A" 2015 120].

(** Two rows for one state. *)
Definition sheet_goa_twice : sheet :=
  mkSheet "STATE/UT" ["2015-16"]
    [mkRow (Some "Goa") [CNum 500]; mkRow (Some "Goa") [CNum 450]].

(** The long table of [sheet_goa_twice]. *)
Definition table_goa_twice : list record :=
  [mkRecord "Goa" 2015 500; mkRecord "Goa" 2015 450].

(** The sheet [sheet_goa] with white space around the labels of its header. *)
Definition sheet_goa_padded : sheet :=
  mkSheet " STATE/UT " ["2014-15 "; " 2015-16"; "2016-17"]
    [mkRow (Some "Goa") [CNum 500; CNum 450; CEmpty]].
(** ** Strings *)

Lemma starts_with_spec (pat s : string) :
  PyStr.starts_with pat s = true <-> exists post, s = pat ++ post.
Proof.
  revert s; induction pat as [|a pat IH]; intros s; simpl.
  - split; [intros _; now exists s | reflexivity].
  - destruct s as [|b s].
    + split; [discriminate | intros [post H]; discriminate].
    + rewrite andb_true_iff, Ascii.eqb_eq, IH. split.
      * intros [-> [post ->]]. now exists post.
      * intros [post H]. injection H as -> ->. split; [reflexivity | now exists post].
Qed.

Lemma contains_spec (pat s : string) :
  PyStr.contains pat s = true <-> exists pre post, s = pre ++ pat ++ post.
Proof.
  induction s as [|c s IH].
  - simpl. rewrite orb_false_r, starts_with_spec. split.
    + intros [post H]. now exists "", post.
    + intros [pre [post H]]. destruct pre; [now exists post | discriminate].
  - cbn [PyStr.contains]. rewrite orb_true_iff, starts_with_spec, IH. split.
    + intros [[post H] | [pre [post H]]].
      * now exists "", post.
      * exists (String c pre), post. simpl. now rewrite H.
    + intros [pre [post H]]. destruct pre as [|d pre].
      * left. now exists post.
      * right. injection H as _ H. now exists pre, post.
Qed.

(** ** Results *)

Lemma map_result_length {A B : Type} (f : A -> result B) (l : list A) (l' : list B) :
  map_result f l = Ok l' -> List.length l' = List.length l.
Proof.
  revert l'; induction l as [|x l IH]; intros l'; simpl.
  - now intros [= <-].
  - destruct (f x); [|discriminate]. simpl.
    destruct (map_result f l); [|discriminate]. simpl.
    intros [= <-]. simpl. now rewrite (IH _ eq_refl).
Qed.

Lemma map_result_nth {A B : Type} (f : A -> result B) (l : list A) (l' : list B) :
  map_result f l = Ok l' ->
  forall p x, nth_error l p = Some x ->
  exists y, f x = Ok y /\ nth_error l' p = Some y.
Proof.
  revert l'; induction l as [|a l IH]; intros l' H p x Hp.
  - destruct p; discriminate.
  - simpl in H. destruct (f a) as [b|] eqn:Ha; [|discriminate]. simpl in H.
    destruct (map_result f l) as [bs|]; [|discriminate]. simpl in H.
    injection H as <-. destruct p as [|p]; simpl in *.
    + injection Hp as <-. now exists b.
    + now apply IH.
Qed.


(** ** The melted frame *)

Lemma column_values_length (j : nat) (label : string) (rs : list row) :
  List.length (column_values j label rs) = List.length rs.
Proof. unfold column_values. apply length_map. Qed.

Lemma melt_from_length (labels : list string) (j0 : nat) (rs : list row) :
  List.length (melt_from j0 labels rs) = (List.length labels * List.length rs)%nat.
Proof.
  revert j0; induction labels as [|label labels IH]; intros j0; simpl; [reflexivity|].
  now rewrite length_app, column_values_length, IH.
Qed.

(** The cell of row [i] and column [j] is row [j * n + i] of the melted
    frame. *)
Lemma melt_from_nth (labels : list string) (j0 : nat) (rs : list row)
    (i j : nat) (rw : row) (label : string) :
  nth_error rs i = Some rw ->
  nth_error labels j = Some label ->
  nth_error (melt_from j0 labels rs) (j * List.length rs + i) =
    Some (mkMelted (state_ut rw) label (nth (j0 + j) (values rw) CEmpty)).
Proof.
  intros Hi. revert j0 j; induction labels as [|l0 labels IH]; intros j0 j Hj.
  - destruct j; discriminate.
  - assert (Hlt : (i < List.length rs)%nat) by (apply nth_error_Some; congruence).
    destruct j as [|j]; simpl in Hj |- *.
    + injection Hj as ->. rewrite nth_error_app1 by (rewrite column_values_length; lia).
      unfold column_values. rewrite nth_error_map, Hi. simpl. now rewrite Nat.add_0_r.
    + rewrite nth_error_app2 by (rewrite column_values_length; lia).
      rewrite column_values_length.
      replace (List.length rs + j * List.length rs + i - List.length rs)%nat
        with (j * List.length rs + i)%nat by lia.
      rewrite (IH (S j0) j Hj). do 3 f_equal. lia.
Qed.

Lemma melt_from_inv (labels : list string) (j0 : nat) (rs : list row)
    (p : nat) (m : melted string cell) :
  nth_error (melt_from j0 labels rs) p = Some m ->
  exists i j rw label,
    p = (j * List.length rs + i)%nat /\
    nth_error rs i = Some rw /\
    nth_error labels j = Some label /\
    m = mkMelted (state_ut rw) label (nth (j0 + j) (values rw) CEmpty).
Proof.
  revert j0 p; induction labels as [|l0 labels IH]; intros j0 p Hp.
  - destruct p; discriminate.
  - simpl in Hp. destruct (Nat.lt_ge_cases p (List.length rs)) as [Hlt | Hge].
    + rewrite nth_error_app1 in Hp by (rewrite column_values_length; lia).
      unfold column_values in Hp. rewrite nth_error_map in Hp.
      destruct (nth_error rs p) as [rw|] eqn:Hrw; [|discriminate].
      injection Hp as <-. exists p, 0%nat, rw, l0.
      rewrite Nat.add_0_r. now repeat split.
    + rewrite nth_error_app2 in Hp by (rewrite column_values_length; lia).
      rewrite column_values_length in Hp.
      destruct (IH _ _ Hp) as (i & j & rw & label & Hpos & Hi & Hj & ->).
      exists i, (S j), rw, label. repeat split; try assumption.
      * simpl. lia.
      * do 2 f_equal. lia.
Qed.

(** ** The final drop *)

Lemma dropna_from_In (ms : list (melted Z (option Q))) (i0 p : nat) (r : record) :
  In (p, r) (dropna_from i0 ms) <->
  exists m, (i0 <= p)%nat /\ nth_error ms (p - i0) = Some m /\ complete m = Some r.
Proof.
  revert i0; induction ms as [|m ms IH]; intros i0; simpl.
  - split; [contradiction|]. intros (m & _ & H & _). destruct (p - i0)%nat; discriminate.
  - assert (Hrest : In (p, r) (dropna_from (S i0) ms) <->
      exists m', (i0 < p)%nat /\ nth_error ms (p - S i0) = Some m' /\ complete m' = Some r).
    { rewrite IH. split; intros (m' & H1 & H2 & H3); exists m'; repeat split; auto; lia. }
    assert (Hhere : forall P : Prop, (P <-> p = i0 /\ complete m = Some r) ->
      (P \/ In (p, r) (dropna_from (S i0) ms) <->
       exists m', (i0 <= p)%nat /\ nth_error (m :: ms) (p - i0) = Some m' /\ complete m' = Some r)).
    { intros P HP. rewrite HP, Hrest. split.
      - intros [[-> Hc] | (m' & Hlt & Hn & Hc)].
        + exists m. rewrite Nat.sub_diag. now repeat split.
        + exists m'. repeat split; auto; [lia|].
          replace (p - i0)%nat with (S (p - S i0)) by lia. exact Hn.
      - intros (m' & Hle & Hn & Hc).
        destruct (Nat.eq_dec p i0) as [-> | Hne].
        + rewrite Nat.sub_diag in Hn. injection Hn as <-. now left.
        + right. exists m'. repeat split; auto; [lia|].
          replace (p - i0)%nat with (S (p - S i0)) in Hn by lia. exact Hn. }
    destruct (complete m) as [r0|] eqn:Hc.
    + simpl. apply Hhere. split.
      * intros [= <- <-]. now split.
      * intros [-> [= ->]]. reflexivity.
    + rewrite <- (Hhere False).
      * tauto.
      * split; [contradiction | intros [_ H]; discriminate].
Qed.

Lemma dropna_In (ms : list (melted Z (option Q))) (p : nat) (r : record) :
  In (p, r) (dropna ms) <-> exists m, nth_error ms p = Some m /\ complete m = Some r.
Proof.
  unfold dropna. rewrite dropna_from_In. rewrite Nat.sub_0_r.
  split; intros (m & H); exists m; intuition lia.
Qed.

Lemma complete_Some (m : melted Z (option Q)) (r : record) :
  complete m = Some r <->
  m_state m = Some (region r) /\ m_year m = year r /\ m_sales m = Some (sales r).
Proof.
  unfold complete. destruct m as [[s|] y [v|]]; simpl; split;
    try discriminate; try (intros (H & _ & H'); discriminate).
  - intros [= <-]. now repeat split.
  - destruct r as [s' y' v']. simpl. intros ([= ->] & -> & [= ->]). reflexivity.
Qed.



Section LoaderFacts.

Variable str_to_float : string -> option Q.

(** What a successful load went through: the header was accepted, and the
    frame before the final drop has one row per cell of the kept rows. *)
Lemma df_melted_cells (sh : sheet) (ms : list (melted Z (option Q))) :
  df_melted str_to_float sh = Ok ms ->
  forall i j rw label,
    nth_error (drop_totals (rows sh)) i = Some rw ->
    nth_error (year_labels sh) j = Some label ->
    exists y,
      PyStr.int (PyStr.take 4 (PyStr.strip label)) = Some y /\
      nth_error ms (j * List.length (drop_totals (rows sh)) + i) =
        Some (mkMelted (state_ut rw) y
                (to_numeric str_to_float (nth j (values rw) CEmpty))).
Proof.
  unfold df_melted. intros H i j rw label Hi Hj.
  destruct (negb _); [discriminate|].
  destruct (existsb _ _); [discriminate|].
  destruct (map_result with_year _) as [l'|] eqn:Hmap; [|discriminate].
  simpl in H. injection H as <-.
  assert (Hj' : nth_error (year_columns sh) j = Some (PyStr.strip label)).
  { unfold year_columns. now rewrite nth_error_map, Hj. }
  pose proof (melt_from_nth _ 0 _ _ _ _ _ Hi Hj') as Hm.
  destruct (map_result_nth _ _ _ Hmap _ _ Hm) as (m' & Hy & Hm').
  unfold with_year, year_of_label in Hy. simpl in Hy.
  destruct (PyStr.int _) as [y|] eqn:Hint; [|discriminate].
  simpl in Hy. injection Hy as <-. exists y. split; [reflexivity|].
  rewrite nth_error_map. unfold melt in Hm'. now rewrite Hm'.
Qed.

Lemma df_melted_rows (sh : sheet) (ms : list (melted Z (option Q))) :
  df_melted str_to_float sh = Ok ms ->
  forall p m, nth_error ms p = Some m ->
  exists i j rw label,
    p = (j * List.length (drop_totals (rows sh)) + i)%nat /\
    nth_error (drop_totals (rows sh)) i = Some rw /\
    nth_error (year_labels sh) j = Some label /\
    m = mkMelted (state_ut rw) (m_year m)
          (to_numeric str_to_float (nth j (values rw) CEmpty)) /\
    PyStr.int (PyStr.take 4 (PyStr.strip label)) = Some (m_year m).
Proof.
  intros H p m Hp. pose proof H as H0. unfold df_melted in H.
  destruct (negb _); [discriminate|].
  destruct (existsb _ _); [discriminate|].
  destruct (map_result with_year _) as [l'|] eqn:Hmap; [|discriminate].
  simpl in H. injection H as <-.
  assert (Hlt : (p < List.length (melt (year_columns sh) (drop_totals (rows sh))))%nat).
  { rewrite <- (map_result_length _ _ _ Hmap), <- (length_map (with_sales str_to_float)).
    apply nth_error_Some. congruence. }
  destruct (nth_error (melt (year_columns sh) (drop_totals (rows sh))) p) as [m0|] eqn:Hm0;
    [|apply nth_error_None in Hm0; lia].
  destruct (melt_from_inv _ _ _ _ _ Hm0) as (i & j & rw & label' & -> & Hi & Hj & _).
  unfold year_columns in Hj. rewrite nth_error_map in Hj.
  destruct (nth_error (year_labels sh) j) as [label|] eqn:Hl; [|discriminate].
  destruct (df_melted_cells _ _ H0 _ _ _ _ Hi Hl) as (y & Hy & Hn).
  rewrite Hp in Hn. injection Hn as ->. simpl.
  exists i, j, rw, label. now repeat split.
Qed.

Lemma load_data_frame (sh : sheet) (df : list (nat * record)) :
  load_data str_to_float sh = Ok df ->
  exists ms, df_melted str_to_float sh = Ok ms /\ df = dropna ms.
Proof.
  unfold load_data. destruct (df_melted str_to_float sh) as [ms|]; [|discriminate].
  simpl. intros [= <-]. now exists ms.
Qed.


End LoaderFacts.

Lemma cell_position (n i j i' j' : nat) :
  (i < n)%nat -> (i' < n)%nat -> (j * n + i = j' * n + i')%nat -> i = i' /\ j = j'.
Proof.
  intros Hi Hi' H.
  assert (Hj : j = j').
  { destruct (Nat.lt_trichotomy j j') as [Hlt | [Heq | Hgt]]; [exfalso | assumption | exfalso]; nia. }
  subst j'. lia.
Qed.

(** What a record of the loaded frame comes from: the cell of a kept row
    with a label, in a year column, holding a number. *)
Lemma load_data_source (str_to_float : string -> option Q) (sh : sheet)
    (df : list (nat * record)) (p : nat) (r : record) :
  load_data str_to_float sh = Ok df ->
  In (p, r) df ->
  exists i j rw label,
    p = (j * List.length (drop_totals (rows sh)) + i)%nat /\
    nth_error (drop_totals (rows sh)) i = Some rw /\
    nth_error (year_labels sh) j = Some label /\
    state_ut rw = Some (region r) /\
    PyStr.int (PyStr.take 4 (PyStr.strip label)) = Some (year r) /\
    to_numeric str_to_float (nth j (values rw) CEmpty) = Some (sales r).
Proof.
  intros Hload Hin. destruct (load_data_frame _ _ _ Hload) as (ms & Hms & ->).
  apply dropna_In in Hin. destruct Hin as (m & Hm & Hc).
  apply complete_Some in Hc. destruct Hc as (Hs & Hy & Hv).
  destruct (df_melted_rows _ _ _ Hms _ _ Hm) as (i & j & rw & label & Hp & Hi & Hj & Heq & Hint).
  exists i, j, rw, label. rewrite Heq in Hs, Hv. simpl in Hs, Hv.
  rewrite <- Hy. now repeat split.
Qed.

(** C1 (the code at the failing input): rows labelled "total" and
    "region total" in lower case survive the loader and give records,
    although each label contains "region" or "total" once case is ignored:
    the search of line 18 is sensitive to case and lists the spellings
    "Region", "Total", "REGION" and "ALL INDIA" only, where the comment of
    line 17 has every total or subtotal row removed. *)
Lemma C1_lowercase_total_survives :
  load_data no_text_number sheet_lower_totals =
    Ok [(0%nat, mkRecord "total" 2015 1); (1%nat, mkRecord "region total" 2015 2)] /\
  PyStr.contains "total" (PyStr.lower "total") = true /\
  PyStr.contains "region" (PyStr.lower "region total") = true.
Proof. repeat split. Qed.

(** X15: no record of the loaded frame has a state label that contains, in
    exactly this spelling, "Region", "Total", "REGION" or "ALL INDIA". *)
Theorem X15_listed_spellings_filtered (str_to_float : string -> option Q)
    (sh : sheet) (df : list (nat * record)) (p : nat) (r : record) :
  load_data str_to_float sh = Ok df ->
  In (p, r) df ->
  ~ (exists pre post, region r = pre ++ "Region" ++ post) /\
  ~ (exists pre post, region r = pre ++ "Total" ++ post) /\
  ~ (exists pre post, region r = pre ++ "REGION" ++ post) /\
  ~ (exists pre post, region r = pre ++ "ALL INDIA" ++ post).
Proof.
  intros Hload Hin.
  destruct (load_data_source _ _ _ _ _ Hload Hin) as (i & j & rw & label & _ & Hi & _ & Hs & _).
  apply nth_error_In in Hi. unfold drop_totals in Hi. apply filter_In in Hi.
  destruct Hi as [_ Hkeep]. rewrite Hs in Hkeep. apply negb_true_iff in Hkeep.
  unfold str_contains, total_patterns in Hkeep. cbn [existsb] in Hkeep.
  repeat (apply orb_false_iff in Hkeep; destruct Hkeep as [?H Hkeep]).
  repeat split; intros Hsub; apply contains_spec in Hsub; congruence.
Qed.

Lemma X15_listed_spellings_filtered_witness :
  load_data no_text_number sheet_goa =
    Ok [(0%nat, mkRecord "Goa" 2014 500); (1%nat, mkRecord "Goa" 2015 450)] /\
  ~ (exists pre post, "Goa" = pre ++ "Region" ++ post) /\
  ~ (exists pre post, "Goa" = pre ++ "Total" ++ post) /\
  ~ (exists pre post, "Goa" = pre ++ "REGION" ++ post) /\
  ~ (exists pre post, "Goa" = pre ++ "ALL INDIA" ++ post).
Proof.
  split; [reflexivity|].
  apply (X15_listed_spellings_filtered no_text_number sheet_goa
           [(0%nat, mkRecord "Goa" 2014 500); (1%nat, mkRecord "Goa" 2015 450)]
           0%nat (mkRecord "Goa" 2014 500)).
  - reflexivity.
  - simpl. left. reflexivity.
Defined.




(** No record of the loaded frame sits at the index of a cell that gives no
    complete row. *)
Lemma load_data_no_record (str_to_float : string -> option Q) (sh : sheet)
    (df : list (nat * record)) (i j : nat) (rw : row) :
  load_data str_to_float sh = Ok df ->
  nth_error (drop_totals (rows sh)) i = Some rw ->
  state_ut rw = None \/ to_numeric str_to_float (nth j (values rw) CEmpty) = None ->
  ~ In (j * List.length (drop_totals (rows sh)) + i)%nat (map fst df).
Proof.
  intros Hload Hi Hbad Hin. apply in_map_iff in Hin.
  destruct Hin as ([p r] & Hp & Hin). simpl in Hp. subst p.
  destruct (load_data_source _ _ _ _ _ Hload Hin)
    as (i' & j' & rw' & label & Hpos & Hi' & _ & Hs & _ & Hv).
  assert (Hlt : (i < List.length (drop_totals (rows sh)))%nat)
    by (apply nth_error_Some; congruence).
  assert (Hlt' : (i' < List.length (drop_totals (rows sh)))%nat)
    by (apply nth_error_Some; congruence).
  destruct (cell_position _ _ _ _ _ Hlt Hlt' Hpos) as [<- <-].
  assert (rw' = rw) by congruence. subst rw'.
  destruct Hbad as [Hbad | Hbad]; congruence.
Qed.



(** C9: the loaded frame holds exactly the rows of the melted frame in which
    no column is missing: each record has a state label, an integer year and
    a sales number that are those of a row of the melted frame at the same
    index; a row of the melted frame with a missing label or a missing sales
    value gives no record, and so a sheet row without a label gives none in
    any year column. *)
Theorem C9_loaded_rows_complete (str_to_float : string -> option Q)
    (sh : sheet) (df : list (nat * record)) :
  load_data str_to_float sh = Ok df ->
  exists ms,
    df_melted str_to_float sh = Ok ms /\
    (forall p r,
       In (p, r) df <->
       exists m, nth_error ms p = Some m /\ m_state m = Some (region r) /\
                 m_year m = year r /\ m_sales m = Some (sales r)) /\
    (forall p m,
       nth_error ms p = Some m -> m_state m = None \/ m_sales m = None ->
       ~ In p (map fst df)) /\
    (forall i j rw,
       nth_error (drop_totals (rows sh)) i = Some rw -> state_ut rw = None ->
       ~ In (j * List.length (drop_totals (rows sh)) + i)%nat (map fst df)).
Proof.
  intros Hload. destruct (load_data_frame _ _ _ Hload) as (ms & Hms & Hdf).
  exists ms. split; [exact Hms|]. split; [|split].
  - intros p r. rewrite Hdf, dropna_In.
    split; intros (m & Hm & Hc); exists m; split; auto; now apply complete_Some.
  - intros p m Hm Hbad Hin. apply in_map_iff in Hin.
    destruct Hin as ([p' r] & Hp & Hin). simpl in Hp. subst p'.
    rewrite Hdf in Hin. apply dropna_In in Hin. destruct Hin as (m' & Hm' & Hc).
    assert (m' = m) by congruence. subst m'.
    apply complete_Some in Hc. destruct Hc as (Hs & _ & Hv).
    destruct Hbad; congruence.
  - intros i j rw Hi Hnone. apply (load_data_no_record str_to_float sh df i j rw); auto.
Qed.

Lemma C9_loaded_rows_complete_witness :
  exists ms,
    df_melted no_text_number sheet_unnamed = Ok ms /\
    (forall p r,
       In (p, r) [(0%nat, mkRecord "Goa" 2015 450)] <->
       exists m, nth_error ms p = Some m /\ m_state m = Some (region r) /\
                 m_year m = year r /\ m_sales m = Some (sales r)) /\
    (forall p m,
       nth_error ms p = Some m -> m_state m = None \/ m_sales m = None ->
       ~ In p (map fst [(0%nat, mkRecord "Goa" 2015 450)])) /\
    (forall i j rw,
       nth_error (drop_totals (rows sheet_unnamed)) i = Some rw -> state_ut rw = None ->
       ~ In (j * List.length (drop_totals (rows sheet_unnamed)) + i)%nat
            (map fst [(0%nat, mkRecord "Goa" 2015 450)])).
Proof.
  apply (C9_loaded_rows_complete no_text_number sheet_unnamed
           [(0%nat, mkRecord "Goa" 2015 450)]).
  reflexivity.
Defined.

(** ** Sorting *)

Section StableSortFacts.

Context {A : Type} (le : A -> A -> bool).

Lemma insert_perm (x : A) (l : list A) : Permutation (insert le x l) (x :: l).
Proof.
  induction l as [|y l IH]; simpl; [apply Permutation_refl|].
  destruct (le x y); [apply Permutation_refl|].
  apply perm_trans with (y :: x :: l); [now apply perm_skip | apply perm_swap].
Qed.

Lemma stable_sort_perm (l : list A) : Permutation (stable_sort le l) l.
Proof.
  induction l as [|x l IH]; simpl; [apply perm_nil|].
  apply perm_trans with (x :: stable_sort le l); [apply insert_perm | now apply perm_skip].
Qed.

(** The elements of a class of equals keep the order they had. *)
Lemma insert_filter (p : A -> bool) (x : A) (l : list A) :
  (forall a b, p a = true -> p b = true -> le a b = true) ->
  filter p (insert le x l) = filter p (x :: l).
Proof.
  intros Hp. induction l as [|y l IH]; [reflexivity|].
  cbn [insert]. destruct (le x y) eqn:Hle; [reflexivity|].
  cbn [filter] in IH |- *. rewrite IH.
  destruct (p x) eqn:Hx, (p y) eqn:Hy; try reflexivity.
  rewrite (Hp x y Hx Hy) in Hle. discriminate.
Qed.

Lemma stable_sort_filter (p : A -> bool) (l : list A) :
  (forall a b, p a = true -> p b = true -> le a b = true) ->
  filter p (stable_sort le l) = filter p l.
Proof.
  intros Hp. induction l as [|x l IH]; [reflexivity|].
  cbn [stable_sort]. rewrite (insert_filter p x _ Hp). cbn [filter]. now rewrite IH.
Qed.

Hypothesis le_total : forall a b, le a b = true \/ le b a = true.
Hypothesis le_trans : forall a b c, le a b = true -> le b c = true -> le a c = true.

Lemma insert_sorted (x : A) (l : list A) :
  StronglySorted (fun a b => le a b = true) l ->
  StronglySorted (fun a b => le a b = true) (insert le x l).
Proof.
  induction 1 as [|y l Hs IH Hall]; simpl.
  - constructor; constructor.
  - destruct (le x y) eqn:Hle.
    + constructor; [now constructor|]. constructor; [exact Hle|].
      eapply Forall_impl; [|exact Hall]. intros a Ha. now apply le_trans with y.
    + constructor; [exact IH|].
      apply (Permutation_Forall (Permutation_sym (insert_perm x l))).
      constructor; [|exact Hall].
      destruct (le_total x y) as [H | H]; [congruence | exact H].
Qed.

Lemma stable_sort_sorted (l : list A) :
  StronglySorted (fun a b => le a b = true) (stable_sort le l).
Proof.
  induction l as [|x l IH]; simpl; [constructor | now apply insert_sorted].
Qed.

End StableSortFacts.

Lemma firstn_In {A : Type} (n : nat) (l : list A) (x : A) :
  In x (firstn n l) -> In x l.
Proof.
  revert n; induction l as [|y l IH]; intros [|n]; simpl; try contradiction.
  intros [H | H]; [now left | right; now apply (IH n)].
Qed.

Lemma firstn_sorted {A : Type} (R : A -> A -> Prop) (n : nat) (l : list A) :
  StronglySorted R l -> StronglySorted R (firstn n l).
Proof.
  intros H. revert n; induction H as [|x l Hs IH Hall]; intros [|n]; simpl; try constructor.
  - apply IH.
  - rewrite Forall_forall in *. intros a Ha. apply Hall. now apply (firstn_In n).
Qed.

Lemma firstn_filter_prefix {A : Type} (p : A -> bool) (n : nat) (l : list A) :
  exists rest, filter p l = (filter p (firstn n l) ++ rest)%list.
Proof.
  revert n; induction l as [|x l IH]; intros [|n]; simpl.
  - now exists [].
  - now exists [].
  - now eexists.
  - destruct (IH n) as [rest Hrest]. exists rest.
    destruct (p x); simpl; now rewrite <- Hrest.
Qed.

(** ** Top and bottom K *)

Lemma sales_ge_total (a b : record) : sales_ge a b = true \/ sales_ge b a = true.
Proof.
  unfold sales_ge. rewrite !Qle_bool_iff.
  destruct (Qlt_le_dec (sales a) (sales b)) as [H | H]; [right; now apply Qlt_le_weak | now left].
Qed.

Lemma sales_ge_trans (a b c : record) :
  sales_ge a b = true -> sales_ge b c = true -> sales_ge a c = true.
Proof. unfold sales_ge. rewrite !Qle_bool_iff. intros H1 H2. now apply Qle_trans with (sales b). Qed.

Lemma sales_le_total (a b : record) : sales_le a b = true \/ sales_le b a = true.
Proof. destruct (sales_ge_total a b) as [H | H]; [right | left]; exact H. Qed.

Lemma sales_le_trans (a b c : record) :
  sales_le a b = true -> sales_le b c = true -> sales_le a c = true.
Proof. unfold sales_le. rewrite !Qle_bool_iff. intros H1 H2. now apply Qle_trans with (sales b). Qed.

Lemma same_sales_ge (v : Q) (a b : record) :
  Qeq_bool (sales a) v = true -> Qeq_bool (sales b) v = true -> sales_ge a b = true.
Proof.
  unfold sales_ge. rewrite !Qeq_bool_iff, Qle_bool_iff. intros Ha Hb.
  rewrite Ha, Hb. apply Qle_refl.
Qed.

Lemma same_sales_le (v : Q) (a b : record) :
  Qeq_bool (sales a) v = true -> Qeq_bool (sales b) v = true -> sales_le a b = true.
Proof. intros Ha Hb. unfold sales_le. exact (same_sales_ge v b a Hb Ha). Qed.

Section FirstRows.

Variable le : record -> record -> bool.
Hypothesis le_total : forall a b, le a b = true \/ le b a = true.
Hypothesis le_trans : forall a b c, le a b = true -> le b c = true -> le a c = true.

(** What [nlargest] and [nsmallest] share: the first [k] rows of the rows
    of one year in a stable order. *)
Lemma first_rows_spec (df : list record) (y : Z) (k : nat) :
  let res := firstn k (stable_sort le (year_data df y)) in
  (forall r, In r res -> In r df /\ year r = y) /\
  StronglySorted (fun a b => le a b = true) res /\
  List.length res = Nat.min k (List.length (year_data df y)) /\
  ((List.length (year_data df y) <= k)%nat -> Permutation res (year_data df y)) /\
  (forall p : record -> bool,
     (forall a b, p a = true -> p b = true -> le a b = true) ->
     exists rest, filter p (year_data df y) = (filter p res ++ rest)%list).
Proof.
  intros res. subst res. repeat split.
  - apply firstn_In in H. apply (Permutation_in _ (stable_sort_perm le _)) in H.
    unfold year_data in H. now apply filter_In in H.
  - apply firstn_In in H. apply (Permutation_in _ (stable_sort_perm le _)) in H.
    unfold year_data in H. apply filter_In in H. now apply Z.eqb_eq.
  - apply firstn_sorted. now apply stable_sort_sorted.
  - rewrite length_firstn. f_equal. apply Permutation_length, stable_sort_perm.
  - intros Hk. rewrite firstn_all2; [apply stable_sort_perm|].
    now rewrite (Permutation_length (stable_sort_perm le _)).
  - intros p Hp.
    destruct (firstn_filter_prefix p k (stable_sort le (year_data df y))) as [rest H].
    exists rest. now rewrite <- H, (stable_sort_filter le p _ Hp).
Qed.

End FirstRows.

Lemma StronglySorted_weaken {A : Type} (R S : A -> A -> Prop) (l : list A) :
  (forall a b, R a b -> S a b) -> StronglySorted R l -> StronglySorted S l.
Proof.
  intros HRS. induction 1 as [|x l Hs IH Hall]; constructor; [exact IH|].
  eapply Forall_impl; [|exact Hall]. intros a. apply HRS.
Qed.

(** C4 (as stated, refuted): a sheet with two rows for Goa loads to two
    records of 2015 for one region; the top 2 and the bottom 2 of 2015 have
    two entries each, not the one entry that min(2, number of regions with
    data) allows. *)
Lemma C4_two_records_one_region :
  load_data no_text_number sheet_goa_twice =
    Ok [(0%nat, mkRecord "Goa" 2015 500); (1%nat, mkRecord "Goa" 2015 450)] /\
  List.length (top_k table_goa_twice 2015 2) = 2%nat /\
  List.length (bottom_k table_goa_twice 2015 2) = 2%nat /\
  List.length
    (nodup string_dec (map region (filter (fun r => Z.eqb (year r) 2015) table_goa_twice))) = 1%nat.
Proof. repeat split. Qed.

(** C4 (amended): the top K and the bottom K of a year hold records of the
    table of that year only; the top K is in descending and the bottom K in
    ascending order of sales; each has min(k, number of records of the year)
    entries, which is min(k, number of regions with data in the year) when no
    region has two records in the year; a k of that number or more returns
    all the records of the year; among records of equal sales the ones
    returned are the first of the table, in table order. *)
Theorem C4_top_bottom_k (df : list record) (y : Z) (k : nat) :
  (forall r, In r (top_k df y k) \/ In r (bottom_k df y k) -> In r df /\ year r = y) /\
  StronglySorted (fun a b => (sales b <= sales a)%Q) (top_k df y k) /\
  StronglySorted (fun a b => (sales a <= sales b)%Q) (bottom_k df y k) /\
  List.length (top_k df y k) =
    Nat.min k (List.length (filter (fun r => Z.eqb (year r) y) df)) /\
  List.length (bottom_k df y k) =
    Nat.min k (List.length (filter (fun r => Z.eqb (year r) y) df)) /\
  (NoDup (map region (filter (fun r => Z.eqb (year r) y) df)) ->
   List.length (top_k df y k) =
     Nat.min k (List.length
                  (nodup string_dec (map region (filter (fun r => Z.eqb (year r) y) df)))) /\
   List.length (bottom_k df y k) =
     Nat.min k (List.length
                  (nodup string_dec (map region (filter (fun r => Z.eqb (year r) y) df))))) /\
  ((List.length (filter (fun r => Z.eqb (year r) y) df) <= k)%nat ->
   Permutation (top_k df y k) (filter (fun r => Z.eqb (year r) y) df) /\
   Permutation (bottom_k df y k) (filter (fun r => Z.eqb (year r) y) df)) /\
  (forall v, exists rest,
     filter (fun r => Qeq_bool (sales r) v) (filter (fun r => Z.eqb (year r) y) df) =
     (filter (fun r => Qeq_bool (sales r) v) (top_k df y k) ++ rest)%list) /\
  (forall v, exists rest,
     filter (fun r => Qeq_bool (sales r) v) (filter (fun r => Z.eqb (year r) y) df) =
     (filter (fun r => Qeq_bool (sales r) v) (bottom_k df y k) ++ rest)%list).
Proof.
  destruct (first_rows_spec sales_ge sales_ge_total sales_ge_trans df y k)
    as (Tin & Tsort & Tlen & Tall & Tties).
  destruct (first_rows_spec sales_le sales_le_total sales_le_trans df y k)
    as (Bin & Bsort & Blen & Ball & Bties).
  unfold top_k, bottom_k, nlargest, nsmallest. unfold year_data in *.
  split; [intros r [H | H]; auto|].
  split; [eapply StronglySorted_weaken; [|exact Tsort];
          intros a b; unfold sales_ge; apply Qle_bool_iff|].
  split; [eapply StronglySorted_weaken; [|exact Bsort];
          intros a b; unfold sales_le; apply Qle_bool_iff|].
  split; [exact Tlen|]. split; [exact Blen|].
  split.
  { intros Hnd. rewrite (nodup_fixed_point string_dec Hnd), length_map. now split. }
  split; [intros Hk; split; auto|].
  split; intros v.
  - apply Tties. apply same_sales_ge.
  - apply Bties. apply same_sales_le.
Qed.

(** ** Summary statistics *)

Lemma filter_filter {A : Type} (f g : A -> bool) (l : list A) :
  filter f (filter g l) = filter (fun x => g x && f x) l.
Proof.
  induction l as [|x l IH]; simpl; [reflexivity|].
  destruct (g x); simpl; [destruct (f x)|]; now rewrite IH.
Qed.


Lemma filter_nil_iff {A : Type} (f : A -> bool) (l : list A) :
  filter f l = [] <-> forall x, In x l -> f x = false.
Proof.
  induction l as [|c l IH]; simpl; [tauto|].
  destruct (f c) eqn:Hc.
  - split; [discriminate|]. intros H. specialize (H c (or_introl eq_refl)). congruence.
  - rewrite IH. split; [intros H x [<- | Hx]; auto | intros H x Hx; auto].
Qed.

Lemma state_year_sales (df : list record) (y : Z) (st : string) :
  state_sales (year_data df y) st =
  map sales (filter (fun r => (year r =? y) && String.eqb (region r) st) df).
Proof. unfold state_sales, year_data. now rewrite filter_filter. Qed.

Lemma state_year_match (r : record) (y : Z) (st : string) :
  (year r =? y) && String.eqb (region r) st = true <-> region r = st /\ year r = y.
Proof. rewrite andb_true_iff, Z.eqb_eq, String.eqb_eq. tauto. Qed.

Lemma fold_qmax (l : list Q) (x : Q) :
  In (fold_left qmax l x) (x :: l) /\
  Forall (fun v => (v <= fold_left qmax l x)%Q) (x :: l).
Proof.
  revert x; induction l as [|y l IH]; intros x; simpl.
  - split; [now left|]. constructor; [apply Qle_refl | constructor].
  - destruct (IH (qmax x y)) as [Hin Hall]. inversion Hall as [|? ? Hhd Htl]; subst.
    assert (Hx : (x <= qmax x y)%Q /\ (y <= qmax x y)%Q /\ (qmax x y = x \/ qmax x y = y)).
    { unfold qmax. destruct (Qle_bool x y) eqn:Hle.
      - apply Qle_bool_iff in Hle. repeat split; auto. apply Qle_refl.
      - repeat split; auto; [apply Qle_refl|].
        destruct (Qlt_le_dec y x) as [H | H]; [now apply Qlt_le_weak|].
        apply Qle_bool_iff in H. congruence. }
    destruct Hx as (Hx & Hy & Hor). split.
    + simpl in Hin. destruct Hin as [Hin | Hin]; [|auto].
      rewrite <- Hin. destruct Hor as [-> | ->]; auto.
    + constructor; [now apply Qle_trans with (qmax x y)|].
      constructor; [now apply Qle_trans with (qmax x y) | exact Htl].
Qed.

Lemma fold_qmin (l : list Q) (x : Q) :
  In (fold_left qmin l x) (x :: l) /\
  Forall (fun v => (fold_left qmin l x <= v)%Q) (x :: l).
Proof.
  revert x; induction l as [|y l IH]; intros x; simpl.
  - split; [now left|]. constructor; [apply Qle_refl | constructor].
  - destruct (IH (qmin x y)) as [Hin Hall]. inversion Hall as [|? ? Hhd Htl]; subst.
    assert (Hx : (qmin x y <= x)%Q /\ (qmin x y <= y)%Q /\ (qmin x y = x \/ qmin x y = y)).
    { unfold qmin. destruct (Qle_bool x y) eqn:Hle.
      - apply Qle_bool_iff in Hle. repeat split; auto. apply Qle_refl.
      - repeat split; auto; [|apply Qle_refl].
        destruct (Qlt_le_dec y x) as [H | H]; [now apply Qlt_le_weak|].
        apply Qle_bool_iff in H. congruence. }
    destruct Hx as (Hx & Hy & Hor). split.
    + simpl in Hin. destruct Hin as [Hin | Hin]; [|auto].
      rewrite <- Hin. destruct Hor as [-> | ->]; auto.
    + constructor; [now apply Qle_trans with (qmin x y)|].
      constructor; [now apply Qle_trans with (qmin x y) | exact Htl].
Qed.


Lemma series_max_spec (l : list Q) :
  l <> [] ->
  exists M, series_max l = Fin M /\ In M l /\ Forall (fun v => (v <= M)%Q) l.
Proof.
  destruct l as [|x l]; [congruence|]. intros _.
  exists (fold_left qmax l x). split; [reflexivity|]. apply fold_qmax.
Qed.

Lemma series_min_spec (l : list Q) :
  l <> [] ->
  exists m, series_min l = Fin m /\ In m l /\ Forall (fun v => (m <= v)%Q) l.
Proof.
  destruct l as [|x l]; [congruence|]. intros _.
  exists (fold_left qmin l x). split; [reflexivity|]. apply fold_qmin.
Qed.



(** C6: the summary raises, with the [IndexError] of [values[0]], exactly
    when the table has no record of the selected state in the selected year,
    and raises nothing else; when it returns, its current value is the sales
    of such a record.  A record with sales of zero gives a summary whose
    current value is zero, a year without a record gives the exception. *)
Theorem C6_no_data (df : list record) (y : Z) (st : string) :
  (summary df y st = Err IndexError <->
   forall a, In a df -> ~ (region a = st /\ year a = y)) /\
  (forall e, summary df y st = Err e -> e = IndexError) /\
  (forall s, summary df y st = Ok s ->
     exists a, In a df /\ region a = st /\ year a = y /\ current s = sales a) /\
  summary table_goa_zero 2015 "Goa" = Ok (mkSummary 0 (Fin 0) (Fin 0) (Fin 0)) /\
  summary table_goa_zero 2016 "Goa" = Err IndexError.
Proof.
  unfold summary, current_year_sales. rewrite state_year_sales.
  destruct (filter (fun r => (year r =? y) && String.eqb (region r) st) df)
    as [|b l] eqn:Hf; simpl.
  - rewrite filter_nil_iff in Hf. repeat split; try discriminate; try congruence.
    intros _ a Hin Ha. apply state_year_match in Ha. rewrite (Hf a Hin) in Ha. discriminate.
  - assert (Hb : In b df /\ region b = st /\ year b = y).
    { assert (H : In b (b :: l)) by now left.
      rewrite <- Hf in H. apply filter_In in H. destruct H as [H1 H2].
      apply state_year_match in H2. tauto. }
    repeat split; try discriminate.
    + intros H. exfalso. destruct Hb as (H1 & H2). exact (H b H1 H2).
    + intros s [= <-]. exists b. simpl. tauto.
Qed.

(** ** The pivot *)

Lemma same_key_iff (a b : record) : same_key a b = true <-> key a = key b.
Proof.
  unfold same_key, key. rewrite andb_true_iff, String.eqb_eq, Z.eqb_eq.
  split; [intros [-> ->]; reflexivity | intros [= -> ->]; now split].
Qed.

Lemma has_duplicates_NoDup (df : list record) :
  has_duplicates df = false <-> NoDup (map key df).
Proof.
  induction df as [|r df IH]; simpl.
  - split; [constructor | reflexivity].
  - rewrite orb_false_iff, IH. split.
    + intros [Hex Hnd]. constructor; [|exact Hnd].
      intros Hin. apply in_map_iff in Hin. destruct Hin as (b & Hb & Hin).
      assert (Ht : existsb (same_key r) df = true).
      { apply existsb_exists. exists b. split; [exact Hin|]. now apply same_key_iff. }
      congruence.
    + intros Hnd. inversion Hnd as [|? ? Hnotin Hnd']; subst. split; [|exact Hnd'].
      destruct (existsb (same_key r) df) eqn:Hex; [|reflexivity].
      apply existsb_exists in Hex. destruct Hex as (b & Hin & Hb).
      apply same_key_iff in Hb. exfalso. apply Hnotin. rewrite Hb. now apply in_map.
Qed.

Lemma NoDup_key_eq (df : list record) (a b : record) :
  NoDup (map key df) -> In a df -> In b df -> key a = key b -> a = b.
Proof.
  induction df as [|r df IH]; [contradiction|].
  intros Hnd Ha Hb Hk. inversion Hnd as [|? ? Hnotin Hnd']; subst.
  destruct Ha as [-> | Ha], Hb as [-> | Hb]; auto.
  - exfalso. apply Hnotin. rewrite Hk. now apply in_map.
  - exfalso. apply Hnotin. rewrite <- Hk. now apply in_map.
Qed.

(** With distinct keys the cell of a record holds its sales. *)
Lemma pivot_cell_record (df : list record) (a : record) :
  NoDup (map key df) -> In a df -> pivot_cell df (region a) (year a) = Fin (sales a).
Proof.
  intros Hnd Hin. unfold pivot_cell.
  destruct (filter _ df) as [|b l] eqn:Hf.
  - rewrite filter_nil_iff in Hf. specialize (Hf a Hin). simpl in Hf.
    rewrite String.eqb_refl, Z.eqb_refl in Hf. discriminate.
  - assert (Hb : In b (b :: l)) by now left.
    rewrite <- Hf in Hb. apply filter_In in Hb. destruct Hb as [Hb Hm].
    apply andb_true_iff in Hm. destruct Hm as [Hr Hy].
    apply String.eqb_eq in Hr. apply Z.eqb_eq in Hy.
    assert (b = a) by (apply (NoDup_key_eq df); auto; unfold key; congruence).
    now subst b.
Qed.

Lemma pivot_cell_absent (df : list record) (st : string) (y : Z) :
  (forall c, In c df -> region c = st -> year c <> y) -> pivot_cell df st y = NaN.
Proof.
  intros H. unfold pivot_cell.
  destruct (filter _ df) as [|b l] eqn:Hf; [reflexivity|].
  assert (Hb : In b (b :: l)) by now left.
  rewrite <- Hf in Hb. apply filter_In in Hb. destruct Hb as [Hb Hm].
  apply andb_true_iff in Hm. destruct Hm as [Hr Hy].
  apply String.eqb_eq in Hr. apply Z.eqb_eq in Hy. now destruct (H b Hb Hr).
Qed.

(** ** The sorted axes *)

Section SortedIndexFacts.

Context {A : Type} (cmp : A -> A -> comparison).
Hypothesis cmp_eq : forall a b, cmp a b = Eq <-> a = b.

Lemma insert_uniq_In (x y : A) (l : list A) :
  In y (insert_uniq cmp x l) <-> y = x \/ In y l.
Proof.
  induction l as [|z l IH]; simpl.
  - split; [intros [<- | []]; now left | intros [-> | []]; now left].
  - destruct (cmp x z) eqn:Hc; simpl.
    + apply cmp_eq in Hc. subst z. split; [tauto | intros [-> | H]; auto].
    + split; [intros [<- | H]; auto | intros [-> | H]; auto].
    + rewrite IH. split; [intros [<- | [-> | H]]; auto | intros [-> | [<- | H]]; auto].
Qed.

Lemma sort_uniq_In (y : A) (l : list A) : In y (sort_uniq cmp l) <-> In y l.
Proof.
  unfold sort_uniq. induction l as [|x l IH]; simpl; [tauto|].
  rewrite insert_uniq_In, IH. split; intros [H | H]; auto.
Qed.

End SortedIndexFacts.

Lemma insert_uniq_sorted (x : Z) (l : list Z) :
  StronglySorted Z.lt l -> StronglySorted Z.lt (insert_uniq Z.compare x l).
Proof.
  induction 1 as [|z l Hs IH Hall]; simpl.
  - constructor; constructor.
  - destruct (Z.compare_spec x z) as [Heq | Hlt | Hgt].
    + now constructor.
    + constructor; [now constructor|]. constructor; [exact Hlt|].
      eapply Forall_impl; [|exact Hall]. intros a Ha. simpl in Ha. lia.
    + constructor; [exact IH|]. rewrite Forall_forall in *. intros a Ha.
      apply (insert_uniq_In Z.compare Z.compare_eq_iff) in Ha.
      destruct Ha as [-> | Ha]; [lia | now apply Hall].
Qed.

Lemma sort_uniq_sorted (l : list Z) : StronglySorted Z.lt (sort_uniq Z.compare l).
Proof.
  unfold sort_uniq. induction l as [|x l IH]; simpl; [constructor | now apply insert_uniq_sorted].
Qed.

(** ** The growth column *)

Lemma pad_rows (cells : Z -> float64) (ys : list Z) (last : float64) :
  combine ys
    (map (fun x => fmul x (Fin 100))
       (map (fun p => fsub (fdiv (fst p) (snd p)) (Fin 1))
          (combine (ffill last (map cells ys)) (last :: ffill last (map cells ys))))) =
  growth_rows Pad cells last ys.
Proof.
  revert last; induction ys as [|y ys IH]; intros last; [reflexivity|].
  cbn [map ffill combine growth_rows fill_value fst snd].
  unfold growth_percent at 1. f_equal. apply IH.
Qed.

Lemma nofill_rows (cells : Z -> float64) (ys : list Z) (last : float64) :
  combine ys
    (map (fun x => fmul x (Fin 100))
       (map (fun p => fsub (fdiv (fst p) (snd p)) (Fin 1))
          (combine (map cells ys) (last :: map cells ys)))) =
  growth_rows NoFill cells last ys.
Proof.
  revert last; induction ys as [|y ys IH]; intros last; [reflexivity|].
  cbn [map combine growth_rows fill_value fst snd].
  unfold growth_percent at 1. f_equal. apply IH.
Qed.

Lemma column_rows (fm : fill_method) (cells : Z -> float64) (ys : list Z) :
  combine ys
    (map (fun x => fmul x (Fin 100)) (pct_change_column fm (map cells ys))) =
  growth_rows fm cells NaN ys.
Proof.
  unfold pct_change_column. destruct fm; [apply pad_rows | apply nofill_rows].
Qed.

Lemma find_column (h : string -> list float64) (st : string) (states : list string) :
  find (fun c => String.eqb (fst c) st) (map (fun s => (s, h s)) states) =
  if existsb (fun s => String.eqb s st) states then Some (st, h st) else None.
Proof.
  induction states as [|s states IH]; [reflexivity|]. simpl.
  destruct (String.eqb s st) eqn:Hs; simpl; [|exact IH].
  apply String.eqb_eq in Hs. now subst s.
Qed.

Lemma growth_with_unfold (fm : fill_method) (df : list record) (st : string) :
  growth_with fm df st =
  if has_duplicates df then Err ValueError
  else if existsb (fun s => String.eqb s st) (sort_uniq String.compare (map region df))
  then Ok (series_dropna
             (growth_rows fm (pivot_cell df st) NaN (sort_uniq Z.compare (map year df))))
  else Err KeyError.
Proof.
  unfold growth_with, pivot. destruct (has_duplicates df); [reflexivity|].
  cbn [bind]. unfold getitem, times_100, pct_change, map_columns.
  cbn [columns index]. rewrite !map_map. cbn [fst snd].
  rewrite (find_column
    (fun s => map (fun x => fmul x (Fin 100))
                (pct_change_column fm
                   (map (pivot_cell df s) (sort_uniq Z.compare (map year df)))))).
  destruct (existsb _ _); [|reflexivity].
  cbn [bind snd]. now rewrite column_rows.
Qed.

Lemma string_compare_eq (a b : string) : String.compare a b = Eq <-> a = b.
Proof.
  split; [apply String.compare_eq_iff|]. intros <-.
  induction a as [|c a IH]; simpl; [reflexivity|].
  unfold Ascii.compare. now rewrite N.compare_refl.
Qed.

Lemma state_listed (df : list record) (st : string) :
  existsb (fun s => String.eqb s st) (sort_uniq String.compare (map region df)) = true <->
  In st (map region df).
Proof.
  rewrite existsb_exists. split.
  - intros (s & Hin & Hs). apply String.eqb_eq in Hs. subst s.
    exact (proj1 (sort_uniq_In String.compare string_compare_eq st _) Hin).
  - intros Hin. exists st. split; [|apply String.eqb_refl].
    exact (proj2 (sort_uniq_In String.compare string_compare_eq st _) Hin).
Qed.

(** What a growth series that was computed went through. *)
Lemma growth_with_Ok (fm : fill_method) (df : list record) (st : string)
    (out : list (Z * float64)) :
  growth_with fm df st = Ok out ->
  NoDup (map key df) /\ In st (map region df) /\
  out = series_dropna
          (growth_rows fm (pivot_cell df st) NaN (sort_uniq Z.compare (map year df))).
Proof.
  rewrite growth_with_unfold.
  destruct (has_duplicates df) eqn:Hd; [discriminate|].
  destruct (existsb _ _) eqn:Hs; [|discriminate].
  intros [= <-]. split; [now apply has_duplicates_NoDup|].
  split; [now apply state_listed | reflexivity].
Qed.

(** ** Rounding to binary64 *)

Lemma shr_1_nonneg (mrs : SpecFloat.shr_record) :
  0 <= SpecFloat.shr_m mrs -> 0 <= SpecFloat.shr_m (SpecFloat.shr_1 mrs).
Proof.
  destruct mrs as [m r s]. simpl.
  destruct m as [|[p|p|]|[p|p|]]; simpl; lia.
Qed.

Lemma iter_shr_1_nonneg (p : positive) (mrs : SpecFloat.shr_record) :
  0 <= SpecFloat.shr_m mrs ->
  0 <= SpecFloat.shr_m (SpecFloat.iter_pos SpecFloat.shr_1 p mrs).
Proof.
  revert mrs; induction p as [p IH|p IH|]; intros mrs H; simpl.
  - apply IH, IH. now apply shr_1_nonneg.
  - now apply IH, IH.
  - now apply shr_1_nonneg.
Qed.

Lemma shr_fexp_nonneg (prec emax m e : Z) (l : SpecFloat.location) :
  0 <= m -> 0 <= SpecFloat.shr_m (fst (SpecFloat.shr_fexp prec emax m e l)).
Proof.
  intros Hm. unfold SpecFloat.shr_fexp, SpecFloat.shr.
  assert (H0 : 0 <= SpecFloat.shr_m (SpecFloat.shr_record_of_loc m l))
    by (destruct l as [|[]]; exact Hm).
  destruct (SpecFloat.fexp prec emax (SpecFloat.Zdigits2 m + e) - e); simpl; auto.
  now apply iter_shr_1_nonneg.
Qed.

Lemma round_nearest_even_nonneg (m : Z) (l : SpecFloat.location) :
  0 <= m -> 0 <= SpecFloat.round_nearest_even m l.
Proof.
  intros Hm. destruct l as [|[]]; simpl; try lia.
  destruct (Z.even m); lia.
Qed.

Lemma binary_round_aux_not_nan (prec emax : Z) (s : bool) (m e : Z)
    (l : SpecFloat.location) :
  0 <= m -> SpecFloat.binary_round_aux prec emax s m e l <> SpecFloat.S754_nan.
Proof.
  intros Hm. unfold SpecFloat.binary_round_aux.
  pose proof (shr_fexp_nonneg prec emax m e l Hm) as H1.
  destruct (SpecFloat.shr_fexp prec emax m e l) as [mrs' e']. simpl in H1.
  pose proof (shr_fexp_nonneg prec emax _ e' SpecFloat.loc_Exact
                (round_nearest_even_nonneg _ (SpecFloat.loc_of_shr_record mrs') H1)) as H2.
  destruct (SpecFloat.shr_fexp prec emax _ e' SpecFloat.loc_Exact) as [mrs'' e''].
  simpl in H2. destruct (SpecFloat.shr_m mrs'') as [|p|p]; try discriminate; [|lia].
  destruct (e'' <=? emax - prec); discriminate.
Qed.

Lemma SFdiv_finite_not_nan (prec emax : Z) (s s' : bool) (m m' : positive) (e e' : Z) :
  SpecFloat.SFdiv prec emax (SpecFloat.S754_finite s m e) (SpecFloat.S754_finite s' m' e')
  <> SpecFloat.S754_nan.
Proof.
  unfold SpecFloat.SFdiv, SpecFloat.SFdiv_core_binary.
  set (k := e - e' - _).
  set (n := match k with Z0 => Zpos m | Zpos _ => Z.shiftl (Zpos m) k | Zneg _ => 0 end).
  assert (Hn : 0 <= n).
  { unfold n. destruct k; try lia. apply Z.shiftl_nonneg. lia. }
  pose proof (Z_div_mod n (Zpos m') eq_refl) as Hdiv.
  destruct (Z.div_eucl n (Zpos m')) as [q r]. destruct Hdiv as [Heq Hr].
  apply binary_round_aux_not_nan. nia.
Qed.

Lemma round64_not_nan (q : Q) : is_nan (round64 q) = false.
Proof.
  unfold round64. destruct (Qnum (Qred q)) as [|n|n]; [reflexivity| |].
  - pose proof (SFdiv_finite_not_nan 53 1024 false false n (Qden (Qred q)) 0 0) as H.
    destruct (SpecFloat.SFdiv _ _ _ _) as [?|[]| |? ? ?]; try reflexivity. congruence.
  - pose proof (SFdiv_finite_not_nan 53 1024 true false n (Qden (Qred q)) 0 0) as H.
    destruct (SpecFloat.SFdiv _ _ _ _) as [?|[]| |? ? ?]; try reflexivity. congruence.
Qed.

Lemma round64_Qeq (p q : Q) : (p == q)%Q -> round64 p = round64 q.
Proof. intros H. unfold round64. now rewrite (Qred_complete _ _ H). Qed.

Lemma round64_one : round64 1 = Fin 1.
Proof. vm_compute. reflexivity. Qed.

Lemma growth_rows_years (fm : fill_method) (cells : Z -> float64) (ys : list Z)
    (last : float64) :
  map fst (growth_rows fm cells last ys) = ys.
Proof.
  revert last; induction ys as [|y ys IH]; intros last; simpl; [reflexivity|].
  now rewrite IH.
Qed.

Lemma series_dropna_years (l : list (Z * float64)) (y : Z) :
  In y (map fst (series_dropna l)) -> In y (map fst l).
Proof.
  intros H. apply in_map_iff in H. destruct H as (p & <- & Hp).
  apply filter_In in Hp. apply in_map. tauto.
Qed.

Lemma series_dropna_sorted (l : list (Z * float64)) :
  StronglySorted Z.lt (map fst l) -> StronglySorted Z.lt (map fst (series_dropna l)).
Proof.
  induction l as [|p l IH]; simpl; [constructor|]. intros H.
  inversion H as [|? ? Hs Hall]; subst.
  destruct (negb (is_nan (snd p))); [|now apply IH].
  simpl. constructor; [now apply IH|].
  rewrite Forall_forall in *. intros y Hy. apply Hall. now apply series_dropna_years.
Qed.


Lemma growth_percent_NaN (x : float64) : growth_percent x NaN = NaN.
Proof. now destruct x. Qed.

Lemma fmul_100_not_nan (x : float64) :
  is_nan x = false -> is_nan (fmul x (Fin 100)) = false.
Proof. destruct x; simpl; try reflexivity; [intros _; apply round64_not_nan | discriminate]. Qed.

Lemma fsub_1_not_nan (x : float64) :
  is_nan x = false -> is_nan (fsub x (Fin 1)) = false.
Proof. destruct x; simpl; try reflexivity; [intros _; apply round64_not_nan | discriminate]. Qed.

(** The growth over a number other than zero is a number or an infinity. *)
Lemma growth_percent_number (a b : Q) :
  ~ (a == 0)%Q -> is_nan (growth_percent (Fin b) (Fin a)) = false.
Proof.
  intros Ha. unfold growth_percent. apply fmul_100_not_nan, fsub_1_not_nan.
  unfold fdiv. destruct (Qeq_bool a 0) eqn:Hz; [apply Qeq_bool_iff in Hz; contradiction|].
  apply round64_not_nan.
Qed.

(** The growth of a number other than zero over itself is zero: the quotient
    is one and nothing is rounded. *)
Lemma growth_percent_same (a : Q) :
  ~ (a == 0)%Q -> growth_percent (Fin a) (Fin a) = Fin 0.
Proof.
  intros Ha. unfold growth_percent, fdiv.
  destruct (Qeq_bool a 0) eqn:Hz; [apply Qeq_bool_iff in Hz; contradiction|].
  assert (H1 : round64 (a / a) = Fin 1).
  { rewrite <- round64_one. apply round64_Qeq. now field. }
  rewrite H1. vm_compute. reflexivity.
Qed.

(** Nothing at or above the first year of a state: the rows above it are
    empty and stay empty whatever the fill. *)
Lemma growth_after_first (fm : fill_method) (cells : Z -> float64) (y0 : Z)
    (ys : list Z) :
  StronglySorted Z.lt ys ->
  (forall y, In y ys -> y < y0 -> cells y = NaN) ->
  forall y, In y (map fst (series_dropna (growth_rows fm cells NaN ys))) -> y0 < y.
Proof.
  induction 1 as [|y1 ys Hs IH Hall]; intros Hcells y; [simpl; tauto|].
  cbn [growth_rows]. rewrite growth_percent_NaN.
  unfold series_dropna. cbn [filter snd is_nan negb]. fold (series_dropna).
  destruct (Z_lt_ge_dec y1 y0) as [Hlt | Hge].
  - rewrite (Hcells y1 (or_introl eq_refl) Hlt).
    replace (fill_value fm NaN NaN) with NaN by now destruct fm.
    apply IH. intros y' Hy'. apply Hcells. now right.
  - intros Hin. apply series_dropna_years in Hin. rewrite growth_rows_years in Hin.
    rewrite Forall_forall in Hall. specialize (Hall y Hin). lia.
Qed.

Lemma sorted_around (l1 l2 : list Z) (x : Z) :
  StronglySorted Z.lt (l1 ++ x :: l2) ->
  (forall y, In y l1 -> y < x) /\ (forall y, In y l2 -> x < y) /\ StronglySorted Z.lt l2.
Proof.
  induction l1 as [|z l1 IH]; simpl; intros H; inversion H as [|? ? Hs Hall]; subst.
  - rewrite Forall_forall in Hall. repeat split; auto. contradiction.
  - destruct (IH Hs) as (H1 & H2 & H3). repeat split; auto.
    intros y [<- | Hy]; auto. rewrite Forall_forall in Hall. apply Hall.
    apply in_or_app. right. now left.
Qed.

Lemma sorted_between (l : list Z) (a b : Z) :
  StronglySorted Z.lt l -> In a l -> In b l -> a < b ->
  exists l1 mid l2,
    l = (l1 ++ a :: mid ++ b :: l2)%list /\
    (forall y, In y mid -> a < y < b) /\
    (forall y, In y l -> a < y < b -> In y mid).
Proof.
  intros Hs Ha Hb Hab.
  destruct (in_split _ _ Ha) as (l1 & r & ->).
  destruct (sorted_around _ _ _ Hs) as (Hl1 & Hr & Hsr).
  assert (Hbr : In b r).
  { apply in_app_or in Hb. destruct Hb as [Hb | [Hb | Hb]]; auto.
    - specialize (Hl1 b Hb). lia.
    - lia. }
  destruct (in_split _ _ Hbr) as (mid & l2 & ->).
  destruct (sorted_around _ _ _ Hsr) as (Hmid & Hl2 & _).
  exists l1, mid, l2. split; [reflexivity|]. split.
  - intros y Hy. split; [|now apply Hmid]. apply Hr. apply in_or_app. now left.
  - intros y Hy Hbetween. apply in_app_or in Hy. destruct Hy as [Hy | [Hy | Hy]].
    + specialize (Hl1 y Hy). lia.
    + lia.
    + apply in_app_or in Hy. destruct Hy as [Hy | [Hy | Hy]]; auto.
      * lia.
      * specialize (Hl2 y Hy). lia.
Qed.

(** Forward fill across the rows between two values of a column. *)
Lemma pad_between (cells : Z -> float64) (sa sb : Q) (ya yb : Z)
    (l1 mid l2 : list Z) (last : float64) :
  cells ya = Fin sa -> cells yb = Fin sb ->
  (forall y, In y mid -> cells y = NaN) ->
  In (yb, growth_percent (Fin sb) (Fin sa))
     (growth_rows Pad cells last (l1 ++ ya :: mid ++ yb :: l2)) /\
  (~ (sa == 0)%Q ->
   forall y, In y mid ->
     In (y, Fin 0) (growth_rows Pad cells last (l1 ++ ya :: mid ++ yb :: l2))).
Proof.
  intros Ha Hb Hmid.
  assert (Hfrom : In (yb, growth_percent (Fin sb) (Fin sa))
                     (growth_rows Pad cells (Fin sa) (mid ++ yb :: l2)) /\
                  (~ (sa == 0)%Q ->
                   forall y, In y mid ->
                     In (y, Fin 0) (growth_rows Pad cells (Fin sa) (mid ++ yb :: l2)))).
  { clear Ha. induction mid as [|m mid IH].
    - simpl. rewrite Hb. simpl. split; [now left | intros _ y []].
    - cbn [app growth_rows]. rewrite (Hmid m (or_introl eq_refl)).
      cbn [fill_value is_nan].
      destruct IH as [IH1 IH2]; [intros y Hy; apply Hmid; now right|].
      split; [now right|]. intros Hsa y [<- | Hy].
      + left. now rewrite (growth_percent_same sa Hsa).
      + right. now apply IH2. }
  revert last; induction l1 as [|z l1 IH]; intros last.
  - cbn [app growth_rows]. rewrite Ha. cbn [fill_value is_nan].
    destruct Hfrom as [H1 H2]. split; [now right | intros Hsa y Hy; right; now apply H2].
  - cbn [app growth_rows]. destruct (IH (fill_value Pad last (cells z))) as [H1 H2].
    split; [now right | intros Hsa y Hy; right; now apply H2].
Qed.

Lemma sorted_NoDup (l : list Z) : StronglySorted Z.lt l -> NoDup l.
Proof.
  induction 1 as [|x l Hs IH Hall]; constructor; [|exact IH].
  intros Hin. rewrite Forall_forall in Hall. specialize (Hall x Hin). lia.
Qed.

Lemma NoDup_fst_eq {A B : Type} (l : list (A * B)) (x : A) (u v : B) :
  NoDup (map fst l) -> In (x, u) l -> In (x, v) l -> u = v.
Proof.
  induction l as [|p l IH]; [contradiction|]. simpl.
  intros Hnd Hu Hv. inversion Hnd as [|? ? Hnotin Hnd']; subst.
  destruct Hu as [-> | Hu], Hv as [Hv | Hv].
  - congruence.
  - exfalso. apply Hnotin. simpl. now apply (in_map fst l (x, v)).
  - exfalso. apply Hnotin. rewrite Hv. simpl. now apply (in_map fst l (x, u)).
  - now apply IH.
Qed.

Lemma latest_record (l : list record) :
  l <> [] -> exists a, In a l /\ forall c, In c l -> year c <= year a.
Proof.
  induction l as [|r l IH]; [congruence|]. intros _.
  destruct l as [|r' l'].
  - exists r. split; [now left | intros c [<- | []]; lia].
  - destruct IH as (a & Ha & Hmax); [discriminate|].
    destruct (Z_le_gt_dec (year r) (year a)) as [Hle | Hgt].
    + exists a. split; [now right|]. intros c [<- | Hc]; auto.
    + exists r. split; [now left|]. intros c [<- | Hc]; [lia|].
      specialize (Hmax c Hc). lia.
Qed.

(** The rows of the growth column of a state around two of its records with
    none of its records in between. *)
Lemma growth_between (df : list record) (st : string) (a b : record) :
  NoDup (map key df) ->
  In a df -> In b df -> region a = st -> region b = st ->
  year a < year b ->
  (forall c, In c df -> region c = st -> ~ (year a < year c < year b)) ->
  let rows := growth_rows Pad (pivot_cell df st) NaN (sort_uniq Z.compare (map year df)) in
  In (year b, growth_percent (Fin (sales b)) (Fin (sales a))) rows /\
  (~ (sales a == 0)%Q ->
   forall c, In c df -> year a < year c < year b -> In (year c, Fin 0) rows).
Proof.
  intros Hnd Ha Hb Hra Hrb Hlt Hnone rows. subst rows.
  assert (Hyears : forall c, In c df -> In (year c) (sort_uniq Z.compare (map year df))).
  { intros c Hc. apply (sort_uniq_In Z.compare Z.compare_eq_iff). now apply in_map. }
  destruct (sorted_between _ _ _ (sort_uniq_sorted (map year df)) (Hyears a Ha) (Hyears b Hb) Hlt)
    as (l1 & mid & l2 & Heq & Hmid & Hin_mid).
  rewrite Heq.
  assert (Hca : pivot_cell df st (year a) = Fin (sales a))
    by (rewrite <- Hra; now apply pivot_cell_record).
  assert (Hcb : pivot_cell df st (year b) = Fin (sales b))
    by (rewrite <- Hrb; now apply pivot_cell_record).
  assert (Hcm : forall y, In y mid -> pivot_cell df st y = NaN).
  { intros y Hy. apply pivot_cell_absent. intros c Hc Hrc Hyc.
    apply (Hnone c Hc Hrc). rewrite Hyc. now apply Hmid. }
  destruct (pad_between _ _ _ _ _ l1 mid l2 NaN Hca Hcb Hcm) as [H1 H2].
  split; [exact H1|]. intros Hsa c Hc Hbetween. apply (H2 Hsa).
  apply Hin_mid; [|exact Hbetween]. now apply Hyears.
Qed.

(** C7 (as stated, refuted): sales of 500 then 450 give a growth of
    -9.999999999999998, the binary64 value of (450 / 500 - 1) * 100, and not
    the -10 of (450 - 500) / 500 * 100; a state with sales of zero in 2015
    and in 2016 gets no entry for 2016, a year with a predecessor, whatever
    the fill; and a state with 100 and 150 in 2015 and 2016 gets an entry for
    2017, a year in which only another state has a record. *)
Lemma C7_growth_not_one_per_successor :
  selected_state_growth table_goa "Goa" =
    Ok [(2015, Fin (-5629499534213119 # 562949953421312))] /\
  ~ (-5629499534213119 # 562949953421312 == (450 - 500) / 500 * 100)%Q /\
  selected_state_growth table_zeros "A" = Ok [] /\
  growth_with NoFill table_zeros "A" = Ok [] /\
  selected_state_growth table_short "A" = Ok [(2016, Fin 50); (2017, Fin 0)].
Proof.
  split; [vm_compute; reflexivity|].
  split; [intros H; vm_compute in H; discriminate H|].
  repeat split; vm_compute; reflexivity.
Qed.

(** C7 (amended): when the growth series of a state is computed, it is in
    ascending order of year; for each record of the state whose predecessor
    among the state's records, in order of year, has sales other than zero,
    it holds the pair of that year and the binary64 value of
    (s[i] / s[i-1] - 1) * 100, the quotient, the difference and the product
    each rounded, which is a number or an infinity; an entry at the year of a
    record of the state is that value for the record and its predecessor,
    which exists; every entry is later than the earliest year of the state,
    which never appears.  Sales of 100 then 150 give 50. *)
Theorem C7_growth_series (df : list record) (st : string) (out : list (Z * float64)) :
  selected_state_growth df st = Ok out ->
  StronglySorted Z.lt (map fst out) /\
  (forall a b,
     In a df -> In b df -> region a = st -> region b = st -> year a < year b ->
     (forall c, In c df -> region c = st -> ~ (year a < year c < year b)) ->
     ~ (sales a == 0)%Q ->
     In (year b, fmul (fsub (fdiv (Fin (sales b)) (Fin (sales a))) (Fin 1)) (Fin 100)) out /\
     is_nan (fmul (fsub (fdiv (Fin (sales b)) (Fin (sales a))) (Fin 1)) (Fin 100)) = false) /\
  (forall b g,
     In b df -> region b = st -> In (year b, g) out ->
     exists a,
       In a df /\ region a = st /\ year a < year b /\
       (forall c, In c df -> region c = st -> ~ (year a < year c < year b)) /\
       g = fmul (fsub (fdiv (Fin (sales b)) (Fin (sales a))) (Fin 1)) (Fin 100)) /\
  (forall a,
     In a df -> region a = st ->
     (forall c, In c df -> region c = st -> year a <= year c) ->
     ~ In (year a) (map fst out) /\ forall y, In y (map fst out) -> year a < y) /\
  selected_state_growth table_100_150 "A" = Ok [(2016, Fin 50)].
Proof.
  intros Hout. unfold selected_state_growth in Hout.
  destruct (growth_with_Ok _ _ _ _ Hout) as (Hnd & Hst & ->).
  set (years := sort_uniq Z.compare (map year df)).
  set (rows := growth_rows Pad (pivot_cell df st) NaN years).
  assert (Hsorted : StronglySorted Z.lt years) by apply sort_uniq_sorted.
  assert (Hfirst : forall a, In a df -> region a = st ->
            (forall c, In c df -> region c = st -> year a <= year c) ->
            forall y, In y (map fst (series_dropna rows)) -> year a < y).
  { intros a Ha Hra Hmin. apply growth_after_first; [exact Hsorted|].
    intros y _ Hy. apply pivot_cell_absent. intros c Hc Hrc Hyc.
    specialize (Hmin c Hc Hrc). lia. }
  split; [|split; [|split; [|split; [|vm_compute; reflexivity]]]].
  - apply series_dropna_sorted. unfold rows. now rewrite growth_rows_years.
  - intros a b Ha Hb Hra Hrb Hlt Hnone Hsa.
    destruct (growth_between df st a b Hnd Ha Hb Hra Hrb Hlt Hnone) as [Hrow _].
    pose proof (growth_percent_number (sales a) (sales b) Hsa) as Hnum.
    unfold growth_percent in Hrow, Hnum. split; [|exact Hnum].
    apply filter_In. split; [exact Hrow|]. cbn [snd]. now rewrite Hnum.
  - intros b g Hb Hrb Hin.
    set (before := filter (fun c => String.eqb (region c) st && (year c <? year b)) df).
    assert (Hbefore : forall c, In c before <-> In c df /\ region c = st /\ year c < year b).
    { intros c. unfold before. rewrite filter_In, andb_true_iff, String.eqb_eq, Z.ltb_lt. tauto. }
    assert (Hne : before <> []).
    { intros Hnil.
      assert (Hmin : forall c, In c df -> region c = st -> year b <= year c).
      { intros c Hc Hrc. destruct (Z_lt_ge_dec (year c) (year b)) as [Hlt | Hge]; [|lia].
        exfalso. assert (H : In c before) by (apply Hbefore; auto).
        rewrite Hnil in H. contradiction. }
      assert (H : year b < year b); [|lia].
      apply (Hfirst b Hb Hrb Hmin). now apply (in_map fst _ (year b, g)). }
    destruct (latest_record before Hne) as (a & Ha & Hmax).
    apply Hbefore in Ha. destruct Ha as (Ha & Hra & Hlt).
    assert (Hnone : forall c, In c df -> region c = st -> ~ (year a < year c < year b)).
    { intros c Hc Hrc [H1 H2]. assert (H : In c before) by (apply Hbefore; auto).
      specialize (Hmax c H). lia. }
    exists a. repeat split; auto.
    destruct (growth_between df st a b Hnd Ha Hb Hra Hrb Hlt Hnone) as [Hrow _].
    apply (NoDup_fst_eq rows (year b)); [| |exact Hrow].
    + unfold rows. rewrite growth_rows_years. now apply sorted_NoDup.
    + unfold series_dropna in Hin. apply filter_In in Hin. tauto.
  - intros a Ha Hra Hmin.
    assert (H : forall y, In y (map fst (series_dropna rows)) -> year a < y)
      by now apply Hfirst.
    split; [|exact H]. intros Hin. specialize (H _ Hin). lia.
Qed.

Lemma C7_growth_series_witness :
  StronglySorted Z.lt (map fst [(2016, Fin 50)]) /\
  (forall a b,
     In a table_100_150 -> In b table_100_150 -> region a = "A" -> region b = "A" ->
     year a < year b ->
     (forall c, In c table_100_150 -> region c = "A" -> ~ (year a < year c < year b)) ->
     ~ (sales a == 0)%Q ->
     In (year b, fmul (fsub (fdiv (Fin (sales b)) (Fin (sales a))) (Fin 1)) (Fin 100))
        [(2016, Fin 50)] /\
     is_nan (fmul (fsub (fdiv (Fin (sales b)) (Fin (sales a))) (Fin 1)) (Fin 100)) = false) /\
  (forall b g,
     In b table_100_150 -> region b = "A" -> In (year b, g) [(2016, Fin 50)] ->
     exists a,
       In a table_100_150 /\ region a = "A" /\ year a < year b /\
       (forall c, In c table_100_150 -> region c = "A" -> ~ (year a < year c < year b)) /\
       g = fmul (fsub (fdiv (Fin (sales b)) (Fin (sales a))) (Fin 1)) (Fin 100)) /\
  (forall a,
     In a table_100_150 -> region a = "A" ->
     (forall c, In c table_100_150 -> region c = "A" -> year a <= year c) ->
     ~ In (year a) (map fst [(2016, Fin 50)]) /\
     forall y, In y (map fst [(2016, Fin 50)]) -> year a < y) /\
  selected_state_growth table_100_150 "A" = Ok [(2016, Fin 50)].
Proof.
  apply (C7_growth_series table_100_150 "A" [(2016, Fin 50)]).
  vm_compute. reflexivity.
Defined.




(** ** Distinct keys *)

Lemma has_duplicates_positions (df : list record) :
  has_duplicates df = true <->
  exists i j a b,
    (i < j)%nat /\ nth_error df i = Some a /\ nth_error df j = Some b /\
    region a = region b /\ year a = year b.
Proof.
  induction df as [|r df IH]; simpl.
  - split; [discriminate|]. intros (i & j & a & b & _ & Hi & _). destruct i; discriminate.
  - rewrite orb_true_iff, IH, existsb_exists. split.
    + intros [(b & Hin & Hk) | (i & j & a & b & Hlt & Hi & Hj & Hk)].
      * destruct (In_nth_error _ _ Hin) as [j Hj].
        apply same_key_iff in Hk. injection Hk as Hr Hy.
        exists 0%nat, (S j), r, b. repeat split; auto. lia.
      * exists (S i), (S j), a, b. repeat split; auto; [lia | tauto | tauto].
    + intros (i & j & a & b & Hlt & Hi & Hj & Hr & Hy).
      destruct j as [|j]; [lia|]. destruct i as [|i]; simpl in *.
      * left. injection Hi as ->. exists b. split; [now apply nth_error_In in Hj|].
        apply same_key_iff. unfold key. congruence.
      * right. exists i, j, a, b. repeat split; auto. lia.
Qed.

(** C10: the pivot raises its [ValueError] exactly when two records of the
    table have the same state and year, and then the growth series of no
    state is computed; it returns exactly when the keys are distinct, and
    then the growth series of every state of the table is computed. *)
Theorem C10_pivot_unique_keys (df : list record) :
  (pivot df = Err ValueError <->
   exists i j a b,
     (i < j)%nat /\ nth_error df i = Some a /\ nth_error df j = Some b /\
     region a = region b /\ year a = year b) /\
  ((exists fr, pivot df = Ok fr) <-> NoDup (map key df)) /\
  (forall st,
     (exists out, selected_state_growth df st = Ok out) <->
     NoDup (map key df) /\ In st (map region df)) /\
  (forall st, ~ NoDup (map key df) -> selected_state_growth df st = Err ValueError) /\
  pivot table_twice = Err ValueError /\
  selected_state_growth table_twice "A" = Err ValueError.
Proof.
  split; [|split; [|split; [|split; [|split; vm_compute; reflexivity]]]].
  - rewrite <- has_duplicates_positions. unfold pivot.
    destruct (has_duplicates df); split; try reflexivity; discriminate.
  - rewrite <- has_duplicates_NoDup. unfold pivot.
    destruct (has_duplicates df); split; try reflexivity; try discriminate.
    + intros [fr H]. discriminate.
    + intros _. now eexists.
  - intros st. unfold selected_state_growth. rewrite growth_with_unfold.
    rewrite <- has_duplicates_NoDup, <- state_listed.
    destruct (has_duplicates df), (existsb _ _); split;
      try (intros [out H]; discriminate); try (intros [H1 H2]; discriminate).
    + intros _. now split.
    + intros _. now eexists.
  - intros st Hdup. unfold selected_state_growth. rewrite growth_with_unfold.
    destruct (has_duplicates df) eqn:Hd; [reflexivity|].
    apply has_duplicates_NoDup in Hd. contradiction.
Qed.

(** * Further properties *)

(** ** The loader *)

Lemma dropna_from_indices (ms : list (melted Z (option Q))) (i0 : nat) :
  StronglySorted lt (map fst (dropna_from i0 ms)) /\
  Forall (fun p => (i0 <= p < i0 + List.length ms)%nat) (map fst (dropna_from i0 ms)).
Proof.
  revert i0; induction ms as [|m ms IH]; intros i0; simpl.
  - split; constructor.
  - destruct (IH (S i0)) as [Hs Hall].
    assert (Hall' : Forall (fun p => (i0 < p < i0 + S (List.length ms))%nat)
                      (map fst (dropna_from (S i0) ms))).
    { eapply Forall_impl; [|exact Hall]. intros p Hp. simpl in Hp. lia. }
    destruct (complete m); simpl.
    + split.
      * constructor; [exact Hs|]. eapply Forall_impl; [|exact Hall']. intros p Hp. simpl in Hp. lia.
      * constructor; [lia|]. eapply Forall_impl; [|exact Hall']. intros p Hp. simpl in Hp. lia.
    + split; [exact Hs|]. eapply Forall_impl; [|exact Hall']. intros p Hp. simpl in Hp. lia.
Qed.

Lemma df_melted_length (str_to_float : string -> option Q) (sh : sheet)
    (ms : list (melted Z (option Q))) :
  df_melted str_to_float sh = Ok ms ->
  List.length ms =
    (List.length (year_labels sh) * List.length (drop_totals (rows sh)))%nat.
Proof.
  unfold df_melted.
  destruct (negb _); [discriminate|].
  destruct (existsb _ _); [discriminate|].
  destruct (map_result with_year _) as [l'|] eqn:Hmap; [|discriminate].
  simpl. intros [= <-].
  rewrite length_map, (map_result_length _ _ _ Hmap). unfold melt.
  rewrite melt_from_length. unfold year_columns. now rewrite length_map.
Qed.

(** X2: the loaded frame is in the order of the melted frame, column after
    column and row after row: the index labels of its records increase
    strictly and stay below the number of cells of the kept rows. *)
Theorem X2_load_data_order (str_to_float : string -> option Q) (sh : sheet)
    (df : list (nat * record)) :
  load_data str_to_float sh = Ok df ->
  StronglySorted lt (map fst df) /\
  Forall (fun p =>
            (p < List.length (year_labels sh) * List.length (drop_totals (rows sh)))%nat)
         (map fst df) /\
  (List.length df <=
     List.length (year_labels sh) * List.length (drop_totals (rows sh)))%nat.
Proof.
  intros Hload. destruct (load_data_frame _ _ _ Hload) as (ms & Hms & ->).
  pose proof (df_melted_length _ _ _ Hms) as Hlen.
  destruct (dropna_from_indices ms 0) as [Hs Hall]. fold (dropna ms) in Hs, Hall.
  split; [exact Hs|]. split.
  - eapply Forall_impl; [|exact Hall]. intros p Hp. simpl in Hp. lia.
  - rewrite <- Hlen. unfold dropna. clear. generalize 0%nat.
    induction ms as [|m ms IH]; intros i0; simpl; [lia|].
    specialize (IH (S i0)). destruct (complete m); simpl; lia.
Qed.

Lemma X2_load_data_order_witness :
  StronglySorted lt (map fst [(0%nat, mkRecord "Goa" 2014 500); (1%nat, mkRecord "Goa" 2015 450)]) /\
  Forall (fun p =>
            (p < List.length (year_labels sheet_goa) *
                 List.length (drop_totals (rows sheet_goa)))%nat)
         (map fst [(0%nat, mkRecord "Goa" 2014 500); (1%nat, mkRecord "Goa" 2015 450)]) /\
  (List.length [(0%nat, mkRecord "Goa" 2014 500); (1%nat, mkRecord "Goa" 2015 450)] <=
     List.length (year_labels sheet_goa) * List.length (drop_totals (rows sheet_goa)))%nat.
Proof.
  apply (X2_load_data_order no_text_number sheet_goa
           [(0%nat, mkRecord "Goa" 2014 500); (1%nat, mkRecord "Goa" 2015 450)]).
  reflexivity.
Defined.

(** X3: nothing that can be loaded is lost: the cell of a kept row with a
    label, in a year column, that reads as a number has a record in the
    loaded frame, at the index of the cell, with that label, the year of the
    column and that number. *)
Theorem X3_load_data_keeps_numbers (str_to_float : string -> option Q) (sh : sheet)
    (df : list (nat * record)) (i j : nat) (rw : row) (label s : string) (v : Q) :
  load_data str_to_float sh = Ok df ->
  nth_error (drop_totals (rows sh)) i = Some rw ->
  nth_error (year_labels sh) j = Some label ->
  state_ut rw = Some s ->
  to_numeric str_to_float (nth j (values rw) CEmpty) = Some v ->
  exists y,
    PyStr.int (PyStr.take 4 (PyStr.strip label)) = Some y /\
    In ((j * List.length (drop_totals (rows sh)) + i)%nat, mkRecord s y v) df.
Proof.
  intros Hload Hi Hj Hs Hv. destruct (load_data_frame _ _ _ Hload) as (ms & Hms & ->).
  destruct (df_melted_cells _ _ _ Hms _ _ _ _ Hi Hj) as (y & Hy & Hn).
  exists y. split; [exact Hy|]. apply dropna_In. eexists. split; [exact Hn|].
  unfold complete. simpl. now rewrite Hs, Hv.
Qed.

Lemma X3_load_data_keeps_numbers_witness :
  exists y,
    PyStr.int (PyStr.take 4 (PyStr.strip "2015-16")) = Some y /\
    In ((1 * List.length (drop_totals (rows sheet_goa)) + 0)%nat, mkRecord "Goa" y 450)
       [(0%nat, mkRecord "Goa" 2014 500); (1%nat, mkRecord "Goa" 2015 450)].
Proof.
  apply (X3_load_data_keeps_numbers no_text_number sheet_goa
           [(0%nat, mkRecord "Goa" 2014 500); (1%nat, mkRecord "Goa" 2015 450)]
           0%nat 1%nat (mkRow (Some "Goa") [CNum 500; CNum 450; CEmpty]) "2015-16" "Goa" 450);
    reflexivity.
Defined.

Lemma digit_facts (c : ascii) :
  PyStr.is_digit c = true ->
  PyStr.is_space c = false /\ c <> "+"%char /\ c <> "-"%char /\
  0 <= PyStr.digit_value c <= 9.
Proof.
  destruct c as [[] [] [] [] [] [] [] []]; vm_compute; intros H; try discriminate H;
    repeat split; try reflexivity; intros H'; discriminate H'.
Qed.

Lemma int_unsigned (c : ascii) (d : string) :
  c <> "+"%char -> c <> "-"%char ->
  PyStr.strip (String c d) = String c d ->
  PyStr.int (String c d) = PyStr.int_digits 0 false (String c d).
Proof.
  intros Hp Hm Hs. unfold PyStr.int. rewrite Hs.
  destruct c as [[] [] [] [] [] [] [] []]; try reflexivity;
    [now destruct Hm | now destruct Hp].
Qed.

(** X4: a label that begins with four decimal digits gives the year those
    digits write, a number from 0 to 9999, whatever follows them. *)
Theorem X4_year_of_four_digits (c1 c2 c3 c4 : ascii) (rest : string) :
  PyStr.is_digit c1 = true -> PyStr.is_digit c2 = true ->
  PyStr.is_digit c3 = true -> PyStr.is_digit c4 = true ->
  year_of_label (String c1 (String c2 (String c3 (String c4 rest)))) =
    Ok (1000 * PyStr.digit_value c1 + 100 * PyStr.digit_value c2 +
        10 * PyStr.digit_value c3 + PyStr.digit_value c4) /\
  0 <= 1000 * PyStr.digit_value c1 + 100 * PyStr.digit_value c2 +
       10 * PyStr.digit_value c3 + PyStr.digit_value c4 <= 9999.
Proof.
  intros H1 H2 H3 H4.
  destruct (digit_facts c1 H1) as (S1 & P1 & M1 & R1).
  destruct (digit_facts c2 H2) as (S2 & _ & _ & R2).
  destruct (digit_facts c3 H3) as (S3 & _ & _ & R3).
  destruct (digit_facts c4 H4) as (S4 & _ & _ & R4).
  split; [|lia].
  unfold year_of_label, PyStr.take.
  replace (substring 0 4 (String c1 (String c2 (String c3 (String c4 rest)))))
    with (String c1 (String c2 (String c3 (String c4 ""))))
    by (destruct rest; reflexivity).
  rewrite (int_unsigned c1 _ P1 M1).
  2:{ unfold PyStr.strip. cbn [PyStr.lstrip]. rewrite S1. cbn [PyStr.rstrip].
      now rewrite S4. }
  cbn [PyStr.int_digits]. rewrite H1, H2, H3, H4.
  f_equal. lia.
Qed.

Lemma X4_year_of_four_digits_witness :
  year_of_label "2015-16" = Ok (1000 * 2 + 100 * 0 + 10 * 1 + 5) /\
  0 <= 1000 * 2 + 100 * 0 + 10 * 1 + 5 <= 9999.
Proof.
  apply (X4_year_of_four_digits "2" "0" "1" "5" "-16"); reflexivity.
Defined.

(** ** White space in the header *)

Lemma lstrip_blank (ws s : string) :
  blank ws = true -> PyStr.lstrip (ws ++ s) = PyStr.lstrip s.
Proof.
  induction ws as [|c ws IH]; simpl; [reflexivity|].
  intros H. apply andb_true_iff in H. destruct H as [Hc Hws]. rewrite Hc. now apply IH.
Qed.

Lemma rstrip_of_blank (ws : string) : blank ws = true -> PyStr.rstrip ws = "".
Proof.
  induction ws as [|c ws IH]; simpl; [reflexivity|].
  intros H. apply andb_true_iff in H. destruct H as [Hc Hws].
  now rewrite (IH Hws), Hc.
Qed.

Lemma rstrip_blank (s ws : string) :
  blank ws = true -> PyStr.rstrip (s ++ ws) = PyStr.rstrip s.
Proof.
  intros Hws. induction s as [|c s IH]; simpl.
  - now apply rstrip_of_blank.
  - now rewrite IH.
Qed.

Lemma lstrip_empty (s : string) : PyStr.lstrip s = "" <-> blank s = true.
Proof.
  induction s as [|c s IH]; simpl; [tauto|].
  destruct (PyStr.is_space c); simpl; [exact IH|]. split; discriminate.
Qed.

Lemma lstrip_app (s t : string) :
  PyStr.lstrip s <> "" -> PyStr.lstrip (s ++ t) = PyStr.lstrip s ++ t.
Proof.
  induction s as [|c s IH]; simpl; [congruence|].
  destruct (PyStr.is_space c); [exact IH | reflexivity].
Qed.

Lemma blank_app (s t : string) : blank (s ++ t) = blank s && blank t.
Proof.
  induction s as [|c s IH]; simpl; [reflexivity|]. now rewrite IH, andb_assoc.
Qed.

Lemma strip_padded (ws s ws' : string) :
  blank ws = true -> blank ws' = true ->
  PyStr.strip (ws ++ s ++ ws') = PyStr.strip s.
Proof.
  intros Hws Hws'. unfold PyStr.strip. rewrite (lstrip_blank ws _ Hws).
  destruct (PyStr.lstrip s) as [|c l] eqn:Hl.
  - assert (Hb : blank (s ++ ws') = true).
    { rewrite blank_app, Hws'. apply lstrip_empty in Hl. now rewrite Hl. }
    apply lstrip_empty in Hb. now rewrite Hb.
  - rewrite lstrip_app by (rewrite Hl; discriminate).
    rewrite Hl. now apply rstrip_blank.
Qed.

(** X5: white space around the labels of the header changes nothing: two
    sheets with the same rows whose labels differ by leading and trailing
    white space only give the same result, be it the table or the
    exception. *)
Theorem X5_header_white_space (str_to_float : string -> option Q) (sh sh' : sheet) :
  rows sh' = rows sh ->
  (exists ws ws', blank ws = true /\ blank ws' = true /\
                  id_label sh' = ws ++ id_label sh ++ ws') ->
  Forall2 (fun label label' =>
             exists ws ws', blank ws = true /\ blank ws' = true /\
                            label' = ws ++ label ++ ws')
          (year_labels sh) (year_labels sh') ->
  load_data str_to_float sh' = load_data str_to_float sh.
Proof.
  intros Hrows (ws & ws' & Hws & Hws' & Hid) Hlabels.
  assert (Hcols : year_columns sh' = year_columns sh).
  { unfold year_columns. induction Hlabels as [|l l' ls ls' (w & w' & Hw & Hw' & ->) _ IH];
      simpl; [reflexivity|].
    now rewrite IH, strip_padded. }
  unfold load_data, df_melted.
  now rewrite Hcols, Hrows, Hid, strip_padded.
Qed.

Lemma X5_header_white_space_witness :
  load_data no_text_number sheet_goa_padded = load_data no_text_number sheet_goa.
Proof.
  apply (X5_header_white_space no_text_number sheet_goa sheet_goa_padded).
  - reflexivity.
  - exists " ", " ". repeat split.
  - repeat constructor.
    + exists "", " ". repeat split.
    + exists " ", "". repeat split.
    + exists "", "". repeat split.
Defined.

(** ** Top and bottom K, the sidebar *)

Lemma sorted_app_cross {A : Type} (R : A -> A -> Prop) (l1 l2 : list A) :
  StronglySorted R (l1 ++ l2) -> forall a b, In a l1 -> In b l2 -> R a b.
Proof.
  induction l1 as [|x l1 IH]; simpl; intros Hs a b Ha Hb; [contradiction|].
  inversion Hs as [|? ? Hs' Hall]; subst. destruct Ha as [<- | Ha].
  - rewrite Forall_forall in Hall. apply Hall. apply in_or_app. now right.
  - now apply IH.
Qed.

Section FirstRowsBest.

Variable le : record -> record -> bool.
Hypothesis le_total : forall a b, le a b = true \/ le b a = true.
Hypothesis le_trans : forall a b c, le a b = true -> le b c = true -> le a c = true.

Lemma first_rows_best (rows : list record) (k : nat) :
  exists rest,
    Permutation (firstn k (stable_sort le rows) ++ rest) rows /\
    forall a b, In a (firstn k (stable_sort le rows)) -> In b rest -> le a b = true.
Proof.
  exists (skipn k (stable_sort le rows)). split.
  - rewrite firstn_skipn. apply stable_sort_perm.
  - apply (sorted_app_cross (fun a b => le a b = true)).
    rewrite firstn_skipn. now apply stable_sort_sorted.
Qed.

Lemma first_row_best (rows : list record) (k : nat) (x : record) :
  In x rows -> (1 <= k)%nat ->
  exists r rest,
    firstn k (stable_sort le rows) = r :: rest /\ In r rows /\
    forall b, In b rows -> le r b = true.
Proof.
  intros Hx Hk.
  pose proof (stable_sort_perm le rows) as Hperm.
  pose proof (stable_sort_sorted le le_total le_trans rows) as Hsorted.
  destruct (stable_sort le rows) as [|r l] eqn:Hsort.
  - apply Permutation_nil in Hperm. subst rows. contradiction.
  - destruct k as [|k]; [lia|]. exists r, (firstn k l). split; [reflexivity|].
    split; [apply (Permutation_in _ Hperm); now left|].
    intros b Hb. apply (Permutation_in _ (Permutation_sym Hperm)) in Hb.
    inversion Hsorted as [|? ? _ Hall]; subst. destruct Hb as [<- | Hb].
    + destruct (le_total r r); assumption.
    + rewrite Forall_forall in Hall. now apply Hall.
Qed.

End FirstRowsBest.

(** X6: the top K of a year are its K largest: the records of the table of
    that year are the top K, which are min(k, their number) many, and a rest
    in which no sales exceed any of the top K; and the bottom K are its K
    smallest in the same sense. *)
Theorem X6_top_k_are_largest (df : list record) (y : Z) (k : nat) :
  (exists rest,
     Permutation (top_k df y k ++ rest) (filter (fun r => Z.eqb (year r) y) df) /\
     List.length (top_k df y k) =
       Nat.min k (List.length (filter (fun r => Z.eqb (year r) y) df)) /\
     forall a b, In a (top_k df y k) -> In b rest -> (sales b <= sales a)%Q) /\
  (exists rest,
     Permutation (bottom_k df y k ++ rest) (filter (fun r => Z.eqb (year r) y) df) /\
     List.length (bottom_k df y k) =
       Nat.min k (List.length (filter (fun r => Z.eqb (year r) y) df)) /\
     forall a b, In a (bottom_k df y k) -> In b rest -> (sales a <= sales b)%Q).
Proof.
  unfold top_k, bottom_k, nlargest, nsmallest, year_data. split.
  - destruct (first_rows_best sales_ge sales_ge_total sales_ge_trans
                (filter (fun r => Z.eqb (year r) y) df) k) as (rest & Hperm & Hbest).
    exists rest. split; [exact Hperm|]. split.
    + rewrite length_firstn. f_equal. apply Permutation_length, stable_sort_perm.
    + intros a b Ha Hb. apply Qle_bool_iff. exact (Hbest a b Ha Hb).
  - destruct (first_rows_best sales_le sales_le_total sales_le_trans
                (filter (fun r => Z.eqb (year r) y) df) k) as (rest & Hperm & Hbest).
    exists rest. split; [exact Hperm|]. split.
    + rewrite length_firstn. f_equal. apply Permutation_length, stable_sort_perm.
    + intros a b Ha Hb. apply Qle_bool_iff. exact (Hbest a b Ha Hb).
Qed.

Section UniqueFacts.

Context {A : Type} (eqb : A -> A -> bool).
Hypothesis eqb_spec : forall a b, eqb a b = true <-> a = b.

Lemma unique_In (x : A) (l : list A) : In x (unique eqb l) <-> In x l.
Proof.
  induction l as [|a l IH]; simpl; [tauto|].
  rewrite filter_In, IH, negb_true_iff. split.
  - intros [H | [H _]]; auto.
  - intros [H | H]; [now left|].
    destruct (eqb a x) eqn:Hax; [left; now apply eqb_spec | right; now split].
Qed.

Lemma unique_NoDup (l : list A) : NoDup (unique eqb l).
Proof.
  induction l as [|a l IH]; simpl; constructor.
  - rewrite filter_In, negb_true_iff. intros [_ H].
    assert (Haa : eqb a a = true) by now apply eqb_spec. congruence.
  - now apply NoDup_filter.
Qed.

End UniqueFacts.

Lemma sorted_strict {A : Type} (R : A -> A -> Prop) (l : list A) :
  StronglySorted R l -> NoDup l -> StronglySorted (fun a b => R a b /\ a <> b) l.
Proof.
  induction 1 as [|x l Hs IH Hall]; intros Hnd; constructor;
    inversion Hnd as [|? ? Hnotin Hnd']; subst.
  - now apply IH.
  - rewrite Forall_forall in *. intros b Hb. split; [now apply Hall|].
    intros <-. contradiction.
Qed.

Lemma sorted_snoc {A : Type} (R : A -> A -> Prop) (l : list A) (x : A) :
  StronglySorted R l -> Forall (fun a => R a x) l -> StronglySorted R (l ++ [x]).
Proof.
  induction 1 as [|y l Hs IH Hall]; intros Hx; simpl.
  - constructor; constructor.
  - inversion Hx as [|? ? Hyx Hx']; subst. constructor; [now apply IH|].
    apply Forall_app. split; [exact Hall | now constructor].
Qed.

Lemma sorted_rev {A : Type} (R : A -> A -> Prop) (l : list A) :
  StronglySorted R l -> StronglySorted (fun a b => R b a) (rev l).
Proof.
  induction 1 as [|x l Hs IH Hall]; simpl; [constructor|].
  apply sorted_snoc; [exact IH|]. apply Forall_rev. exact Hall.
Qed.

Lemma increasing_eq (l1 l2 : list Z) :
  StronglySorted Z.lt l1 -> StronglySorted Z.lt l2 ->
  (forall x, In x l1 <-> In x l2) -> l1 = l2.
Proof.
  intros H1. revert l2; induction H1 as [|x l1 Hs1 IH Hall1]; intros l2 H2 Hin.
  - destruct l2 as [|y l2]; [reflexivity|]. destruct (proj2 (Hin y) (or_introl eq_refl)).
  - destruct H2 as [|y l2 Hs2 Hall2]; [destruct (proj1 (Hin x) (or_introl eq_refl))|].
    rewrite Forall_forall in Hall1, Hall2.
    assert (Hxy : x = y).
    { destruct (proj1 (Hin x) (or_introl eq_refl)) as [Hy | Hy]; [now symmetry|].
      destruct (proj2 (Hin y) (or_introl eq_refl)) as [Hx | Hx]; [exact Hx|].
      specialize (Hall1 y Hx). specialize (Hall2 x Hy). lia. }
    subst y. f_equal. apply IH; [exact Hs2|].
    intros z. split; intros Hz.
    + destruct (proj1 (Hin z) (or_intror Hz)) as [Heq | Hz']; [|exact Hz'].
      specialize (Hall1 z Hz). lia.
    + destruct (proj2 (Hin z) (or_intror Hz)) as [Heq | Hz']; [|exact Hz'].
      specialize (Hall2 z Hz). lia.
Qed.

Lemma geb_total (a b : Z) : Z.geb a b = true \/ Z.geb b a = true.
Proof. rewrite !Z.geb_le. lia. Qed.

Lemma geb_trans (a b c : Z) : Z.geb a b = true -> Z.geb b c = true -> Z.geb a c = true.
Proof. rewrite !Z.geb_le. lia. Qed.

Lemma years_In (df : list record) (y : Z) : In y (years df) <-> In y (map year df).
Proof.
  unfold years. rewrite <- (unique_In Z.eqb Z.eqb_eq y (map year df)). split.
  - apply Permutation_in, stable_sort_perm.
  - apply Permutation_in, Permutation_sym, stable_sort_perm.
Qed.

Lemma years_descending (df : list record) : StronglySorted Z.gt (years df).
Proof.
  assert (H : StronglySorted (fun a b => Z.geb a b = true /\ a <> b) (years df)).
  { apply sorted_strict.
    - apply stable_sort_sorted; [exact geb_total | exact geb_trans].
    - apply (Permutation_NoDup (Permutation_sym (stable_sort_perm _ _))).
      apply (unique_NoDup Z.eqb Z.eqb_eq). }
  eapply StronglySorted_weaken; [|exact H].
  intros a b [Hge Hne]. apply Z.geb_le in Hge. lia.
Qed.

(** X7: the years offered in the sidebar are the years of the table, each
    once, the latest first; the one selected by default is the latest year
    of the table, and there is none to select only when the table is empty;
    read backwards they are the index of the pivot. *)
Theorem X7_years_options (df : list record) :
  StronglySorted Z.gt (years df) /\
  (forall y, In y (years df) <-> exists r, In r df /\ year r = y) /\
  (forall y, selectbox (years df) 0 = Some y ->
     (exists r, In r df /\ year r = y) /\ forall r, In r df -> year r <= y) /\
  (forall choice, selectbox (years df) choice = None ->
     (List.length (years df) <= choice)%nat) /\
  (years df = [] <-> df = []) /\
  rev (years df) = sort_uniq Z.compare (map year df).
Proof.
  assert (Hin : forall y, In y (years df) <-> exists r, In r df /\ year r = y).
  { intros y. rewrite years_In, in_map_iff. split; intros (r & H1 & H2); exists r; tauto. }
  pose proof (years_descending df) as Hdesc.
  split; [exact Hdesc|]. split; [exact Hin|]. split; [|split; [|split]].
  - intros y Hsel. unfold selectbox in Hsel.
    destruct (years df) as [|y0 l] eqn:Hy; [discriminate|]. injection Hsel as ->.
    split; [apply Hin; now left|]. intros r Hr.
    assert (Hry : In (year r) (y :: l)) by (apply Hin; now exists r).
    inversion Hdesc as [|? ? _ Hall]; subst. destruct Hry as [<- | Hry]; [lia|].
    rewrite Forall_forall in Hall. specialize (Hall _ Hry). lia.
  - intros choice Hnone. now apply nth_error_None.
  - split.
    + intros Hnil. destruct df as [|r df]; [reflexivity|].
      assert (H : In (year r) (years (r :: df))) by (apply Hin; exists r; split; [now left | reflexivity]).
      rewrite Hnil in H. contradiction.
    + intros ->. reflexivity.
  - apply increasing_eq.
    + eapply StronglySorted_weaken; [|exact (sorted_rev _ _ Hdesc)].
      intros a b Hab. simpl in Hab. lia.
    + apply sort_uniq_sorted.
    + intros x. rewrite <- in_rev, years_In.
      symmetry. apply (sort_uniq_In Z.compare Z.compare_eq_iff).
Qed.

(** X8: for a year chosen in the sidebar and K of one at least the two
    charts are not empty: the top K begins with a record of the largest sales
    of that year and the bottom K with one of the smallest. *)
Theorem X8_first_bars (df : list record) (y : Z) (k : nat) :
  In y (years df) -> (1 <= k)%nat ->
  (exists r rest,
     top_k df y k = r :: rest /\ In r df /\ year r = y /\
     forall b, In b df -> year b = y -> (sales b <= sales r)%Q) /\
  (exists r rest,
     bottom_k df y k = r :: rest /\ In r df /\ year r = y /\
     forall b, In b df -> year b = y -> (sales r <= sales b)%Q).
Proof.
  intros Hy Hk. apply years_In in Hy. apply in_map_iff in Hy.
  destruct Hy as (x & Hxy & Hx).
  assert (Hdata : forall b, In b (year_data df y) <-> In b df /\ year b = y).
  { intros b. unfold year_data. rewrite filter_In, Z.eqb_eq. tauto. }
  assert (Hxd : In x (year_data df y)) by now apply Hdata.
  unfold top_k, bottom_k, nlargest, nsmallest. split.
  - destruct (first_row_best sales_ge sales_ge_total sales_ge_trans _ k x Hxd Hk)
      as (r & rest & Heq & Hr & Hbest).
    exists r, rest. apply Hdata in Hr. repeat split; try tauto.
    intros b Hb Hby. apply Qle_bool_iff. apply (Hbest b). now apply Hdata.
  - destruct (first_row_best sales_le sales_le_total sales_le_trans _ k x Hxd Hk)
      as (r & rest & Heq & Hr & Hbest).
    exists r, rest. apply Hdata in Hr. repeat split; try tauto.
    intros b Hb Hby. apply Qle_bool_iff. apply (Hbest b). now apply Hdata.
Qed.

Lemma X8_first_bars_witness :
  (exists r rest,
     top_k table_goa 2015 1 = r :: rest /\ In r table_goa /\ year r = 2015 /\
     forall b, In b table_goa -> year b = 2015 -> (sales b <= sales r)%Q) /\
  (exists r rest,
     bottom_k table_goa 2015 1 = r :: rest /\ In r table_goa /\ year r = 2015 /\
     forall b, In b table_goa -> year b = 2015 -> (sales r <= sales b)%Q).
Proof.
  apply (X8_first_bars table_goa 2015 1).
  - simpl. left. reflexivity.
  - lia.
Defined.

Lemma string_leb_total (a b : string) : String.leb a b = true \/ String.leb b a = true.
Proof. apply String.leb_total. Qed.

Lemma string_leb_trans (a b c : string) :
  String.leb a b = true -> String.leb b c = true -> String.leb a c = true.
Proof.
  unfold String.leb. revert b c; induction a as [|x a IH]; intros [|y b] [|z c];
    simpl; try reflexivity; try discriminate.
  unfold Ascii.compare.
  destruct (N.compare_spec (N_of_ascii x) (N_of_ascii y)) as [Hxy | Hxy | Hxy];
    destruct (N.compare_spec (N_of_ascii y) (N_of_ascii z)) as [Hyz | Hyz | Hyz];
    destruct (N.compare_spec (N_of_ascii x) (N_of_ascii z)) as [Hxz | Hxz | Hxz];
    try reflexivity; try discriminate; try lia.
  apply IH.
Qed.

Lemma string_leb_strict (a b : string) :
  String.leb a b = true -> a <> b -> String.compare a b = Lt.
Proof.
  unfold String.leb. destruct (String.compare a b) eqn:Hc; try reflexivity.
  - intros _ Hne. apply string_compare_eq in Hc. contradiction.
  - discriminate.
Qed.

Lemma state_options_In (df : list record) (st : string) :
  In st (state_options df) <-> In st (map region df).
Proof.
  unfold state_options. rewrite <- (unique_In String.eqb String.eqb_eq st (map region df)).
  split.
  - apply Permutation_in, stable_sort_perm.
  - apply Permutation_in, Permutation_sym, stable_sort_perm.
Qed.

(** X9: the states offered in the sidebar are the states of the table, each
    once, in increasing order of their names. *)
Theorem X9_state_options (df : list record) :
  StronglySorted (fun a b => String.compare a b = Lt) (state_options df) /\
  NoDup (state_options df) /\
  (forall st, In st (state_options df) <-> exists r, In r df /\ region r = st) /\
  (state_options df = [] <-> df = []).
Proof.
  assert (Hin : forall st, In st (state_options df) <-> exists r, In r df /\ region r = st).
  { intros st. rewrite state_options_In, in_map_iff.
    split; intros (r & H1 & H2); exists r; tauto. }
  assert (Hnd : NoDup (state_options df)).
  { apply (Permutation_NoDup (Permutation_sym (stable_sort_perm _ _))).
    apply (unique_NoDup String.eqb String.eqb_eq). }
  split; [|split; [exact Hnd|split; [exact Hin|]]].
  - eapply StronglySorted_weaken;
      [|apply (sorted_strict (fun a b => String.leb a b = true)); [|exact Hnd]].
    + intros a b [Hle Hne]. now apply string_leb_strict.
    + apply stable_sort_sorted; [exact string_leb_total | exact string_leb_trans].
  - split.
    + intros Hnil. destruct df as [|r df]; [reflexivity|].
      assert (H : In (region r) (state_options (r :: df)))
        by (apply Hin; exists r; split; [now left | reflexivity]).
      rewrite Hnil in H. contradiction.
    + intros ->. reflexivity.
Qed.

(** ** Summary and growth for a state of the sidebar *)

Lemma summary_current (df : list record) (y : Z) (st : string) (s : summary_stats) :
  summary df y st = Ok s ->
  exists a, In a df /\ region a = st /\ year a = y /\ current s = sales a.
Proof.
  unfold summary, current_year_sales. rewrite state_year_sales.
  destruct (filter (fun r => (year r =? y) && String.eqb (region r) st) df)
    as [|b l] eqn:Hf; simpl; [discriminate|].
  intros [= <-]. exists b. simpl.
  assert (H : In b (b :: l)) by now left.
  rewrite <- Hf in H. apply filter_In in H. destruct H as [H1 H2].
  apply state_year_match in H2. tauto.
Qed.

(** X10: for a state of the sidebar the minimum and the maximum are the
    sales of records of the state, the minimum at most the maximum; when the
    summary is computed, its current value lies between the two. *)
Theorem X10_summary_order (df : list record) (y : Z) (st : string) :
  In st (state_options df) ->
  exists lo hi,
    min_sales df st = Fin lo /\ max_sales df st = Fin hi /\
    (exists a, In a df /\ region a = st /\ sales a = lo) /\
    (exists b, In b df /\ region b = st /\ sales b = hi) /\
    (lo <= hi)%Q /\
    forall s, summary df y st = Ok s -> (lo <= current s)%Q /\ (current s <= hi)%Q.
Proof.
  intros Hst. apply state_options_In in Hst. apply in_map_iff in Hst.
  destruct Hst as (x & Hxr & Hx).
  assert (Hne : state_sales df st <> []).
  { unfold state_sales. intros Hnil. apply map_eq_nil in Hnil.
    rewrite filter_nil_iff in Hnil. specialize (Hnil x Hx).
    apply String.eqb_eq in Hxr. congruence. }
  assert (Hrec : forall v, In v (state_sales df st) ->
            exists a, In a df /\ region a = st /\ sales a = v).
  { intros v Hv. unfold state_sales in Hv. apply in_map_iff in Hv.
    destruct Hv as (a & Ha & Hin). apply filter_In in Hin. destruct Hin as [Hin Hr].
    apply String.eqb_eq in Hr. now exists a. }
  destruct (series_min_spec _ Hne) as (lo & Hlo & Hlo_in & Hlo_all).
  destruct (series_max_spec _ Hne) as (hi & Hhi & Hhi_in & Hhi_all).
  exists lo, hi. unfold min_sales, max_sales.
  rewrite Forall_forall in Hlo_all, Hhi_all.
  split; [exact Hlo|]. split; [exact Hhi|].
  split; [now apply Hrec|]. split; [now apply Hrec|].
  split; [now apply Hhi_all|].
  intros s Hs.
  destruct (summary_current df y st s Hs) as (a & Ha & Har & _ & Hcur).
  assert (Hin : In (sales a) (state_sales df st)).
  { unfold state_sales. apply in_map. apply filter_In. split; [exact Ha|].
    now apply String.eqb_eq. }
  rewrite Hcur. split; auto.
Qed.

Lemma X10_summary_order_witness :
  exists lo hi,
    min_sales table_goa "Goa" = Fin lo /\ max_sales table_goa "Goa" = Fin hi /\
    (exists a, In a table_goa /\ region a = "Goa" /\ sales a = lo) /\
    (exists b, In b table_goa /\ region b = "Goa" /\ sales b = hi) /\
    (lo <= hi)%Q /\
    forall s, summary table_goa 2015 "Goa" = Ok s ->
              (lo <= current s)%Q /\ (current s <= hi)%Q.
Proof.
  apply (X10_summary_order table_goa 2015 "Goa").
  simpl. left. reflexivity.
Defined.

(** X11: line 72 raises [IndexError] on an empty table; on any other table
    the value it calls the latest year is the column name "Sales", the
    variable of the last row of the melted frame, and never a year. *)
Theorem X11_latest_year (df : list record) :
  (df = [] -> latest_year df = Err IndexError) /\
  (df <> [] -> latest_year df = Ok "Sales") /\
  (forall name, latest_year df = Ok name -> name = "Sales" /\ df <> []).
Proof.
  assert (Hne : df <> [] -> latest_year df = Ok "Sales").
  { intros Hdf. unfold latest_year, iloc_last, script_df_melted.
    rewrite map_app, rev_app_distr, !map_map. simpl.
    destruct df as [|r df]; [congruence|].
    destruct (exists_last (l := r :: df)) as (l & a & Heq); [discriminate|].
    rewrite Heq, !map_app, rev_app_distr. reflexivity. }
  split; [intros ->; reflexivity|]. split; [exact Hne|].
  intros name Hname. destruct df as [|r df]; [discriminate|].
  rewrite Hne in Hname by discriminate. injection Hname as <-. split; [reflexivity | discriminate].
Qed.

(** X12: the growth computation raises [KeyError] exactly when the keys of
    the table are distinct and the state is none of the sidebar; for a state
    chosen in the sidebar it raises [ValueError] or returns the series. *)
Theorem X12_growth_key_error (df : list record) (st : string) :
  (selected_state_growth df st = Err KeyError <->
   NoDup (map key df) /\ ~ In st (state_options df)) /\
  (In st (state_options df) ->
   selected_state_growth df st = Err ValueError \/
   exists out, selected_state_growth df st = Ok out).
Proof.
  unfold selected_state_growth. rewrite growth_with_unfold.
  rewrite state_options_In, <- state_listed, <- has_duplicates_NoDup.
  destruct (has_duplicates df), (existsb _ _); split;
    try (split; [discriminate | intros [H1 H2]; try discriminate; now destruct H2]);
    try (intros _; now left); try (intros _; right; now eexists);
    try discriminate.
  split; [intros _; split; [reflexivity | discriminate] | reflexivity].
Qed.

(** ** Growth of a state with a record in every year *)

Lemma growth_rows_all_kept (cells : Z -> float64) (ys : list Z) (a : Q) :
  ~ (a == 0)%Q ->
  (forall y, In y ys -> exists v, cells y = Fin v /\ ~ (v == 0)%Q) ->
  series_dropna (growth_rows Pad cells (Fin a) ys) = growth_rows Pad cells (Fin a) ys.
Proof.
  revert a; induction ys as [|y ys IH]; intros a Ha Hcells; [reflexivity|].
  destruct (Hcells y (or_introl eq_refl)) as (v & Hv & Hv0).
  cbn [growth_rows]. rewrite Hv. cbn [fill_value is_nan].
  unfold series_dropna. cbn [filter snd]. rewrite (growth_percent_number a v Ha).
  cbn [negb]. fold series_dropna.
  f_equal. apply IH; [exact Hv0|]. intros y' Hy'. apply Hcells. now right.
Qed.

(** X13: for a state that has a record, of sales that are a number other
    than zero, in every year of the table, the growth series has one entry
    for each year of the table but the earliest, in increasing order of
    year. *)
Theorem X13_growth_every_year (df : list record) (st : string)
    (out : list (Z * float64)) :
  selected_state_growth df st = Ok out ->
  (forall y, In y (years df) -> exists r, In r df /\ region r = st /\ year r = y) ->
  (forall r, In r df -> region r = st -> ~ (sales r == 0)%Q) ->
  map fst out = tl (rev (years df)) /\
  List.length out = (List.length (years df) - 1)%nat.
Proof.
  intros Hout Hall Hnz. unfold selected_state_growth in Hout.
  destruct (growth_with_Ok _ _ _ _ Hout) as (Hnd & _ & ->).
  assert (Hrev : rev (years df) = sort_uniq Z.compare (map year df)).
  { apply increasing_eq.
    - eapply StronglySorted_weaken; [|exact (sorted_rev _ _ (years_descending df))].
      intros a b Hab. simpl in Hab. lia.
    - apply sort_uniq_sorted.
    - intros x. rewrite <- in_rev, years_In.
      symmetry. apply (sort_uniq_In Z.compare Z.compare_eq_iff). }
  assert (Hcells : forall y, In y (sort_uniq Z.compare (map year df)) ->
            exists v, pivot_cell df st y = Fin v /\ ~ (v == 0)%Q).
  { intros y Hy. rewrite <- Hrev, <- in_rev in Hy.
    destruct (Hall y Hy) as (r & Hr & Hrs & Hry).
    exists (sales r). split; [|now apply Hnz].
    rewrite <- Hrs, <- Hry. now apply pivot_cell_record. }
  assert (Hlen : List.length (years df) =
                 List.length (sort_uniq Z.compare (map year df)))
    by now rewrite <- Hrev, length_rev.
  rewrite Hrev, Hlen.
  destruct (sort_uniq Z.compare (map year df)) as [|y0 ys]; [split; reflexivity|].
  destruct (Hcells y0 (or_introl eq_refl)) as (v0 & Hv0 & Hv0nz).
  cbn [growth_rows]. rewrite Hv0, growth_percent_NaN. cbn [fill_value is_nan].
  unfold series_dropna at 1 2. cbn [filter snd is_nan negb]. fold series_dropna.
  rewrite growth_rows_all_kept by (auto; intros y Hy; apply Hcells; now right).
  split; [now rewrite growth_rows_years|].
  rewrite <- (length_map fst), growth_rows_years. simpl. lia.
Qed.

Lemma X13_growth_every_year_witness :
  map fst [(2016, Fin 50)] = tl (rev (years table_100_150)) /\
  List.length [(2016, Fin 50)] = (List.length (years table_100_150) - 1)%nat.
Proof.
  apply (X13_growth_every_year table_100_150 "A" [(2016, Fin 50)]).
  - vm_compute. reflexivity.
  - intros y [<- | [<- | []]].
    + exists (mkRecord "A" 2016 150). simpl. auto.
    + exists (mkRecord "A" 2015 100). simpl. auto.
  - intros r [<- | [<- | []]] _; unfold Qeq; simpl; lia.
Defined.

(** ** From the sheet to the growth chart *)

Lemma NoDup_map_by {A B C : Type} (f : A -> B) (g : A -> C) (l : list A) :
  NoDup (map g l) ->
  (forall x y, In x l -> In y l -> f x = f y -> g x = g y) ->
  NoDup (map f l).
Proof.
  induction l as [|a l IH]; simpl; intros Hnd Hfg; [constructor|].
  inversion Hnd as [|? ? Hnotin Hnd']; subst. constructor.
  - intros Hin. apply in_map_iff in Hin. destruct Hin as (y & Hy & Hin).
    apply Hnotin. rewrite <- (Hfg y a (or_intror Hin) (or_introl eq_refl) Hy).
    now apply in_map.
  - apply IH; [exact Hnd'|]. intros x y Hx Hy. apply Hfg; now right.
Qed.

Lemma increasing_NoDup (l : list nat) : StronglySorted lt l -> NoDup l.
Proof.
  induction 1 as [|x l Hs IH Hall]; constructor; [|exact IH].
  intros Hin. rewrite Forall_forall in Hall. specialize (Hall x Hin). lia.
Qed.

(** X14: when no two kept rows of the sheet have the same label and no two
    year columns give the same year, the loaded table has one record at most
    for a state and a year; the pivot of the growth computation does not
    raise on it, and the growth series of every state of the sidebar is
    computed. *)
Theorem X14_load_data_unique_keys (str_to_float : string -> option Q) (sh : sheet)
    (df : list (nat * record)) :
  load_data str_to_float sh = Ok df ->
  NoDup (map state_ut (drop_totals (rows sh))) ->
  NoDup (map (fun label => PyStr.int (PyStr.take 4 (PyStr.strip label))) (year_labels sh)) ->
  NoDup (map key (long_table df)) /\
  (exists fr, pivot (long_table df) = Ok fr) /\
  (forall st, In st (state_options (long_table df)) ->
              exists out, selected_state_growth (long_table df) st = Ok out).
Proof.
  intros Hload Hrows Hcols.
  assert (Hnd : NoDup (map key (long_table df))).
  { unfold long_table. rewrite map_map.
    apply (NoDup_map_by (fun x => key (snd x)) fst).
    - apply increasing_NoDup.
      destruct (load_data_frame _ _ _ Hload) as (ms & _ & ->).
      apply (dropna_from_indices ms 0).
    - intros [p1 r1] [p2 r2] H1 H2 Hk. simpl in Hk |- *.
      destruct (load_data_source _ _ _ _ _ Hload H1)
        as (i1 & j1 & rw1 & l1 & -> & Hi1 & Hj1 & Hs1 & Hy1 & _).
      destruct (load_data_source _ _ _ _ _ Hload H2)
        as (i2 & j2 & rw2 & l2 & -> & Hi2 & Hj2 & Hs2 & Hy2 & _).
      unfold key in Hk. injection Hk as Hr Hy.
      assert (Hi : i1 = i2).
      { apply (proj1 (NoDup_nth_error _) Hrows).
        - rewrite length_map. apply nth_error_Some. congruence.
        - rewrite !nth_error_map, Hi1, Hi2. simpl. congruence. }
      assert (Hj : j1 = j2).
      { apply (proj1 (NoDup_nth_error _) Hcols).
        - rewrite length_map. apply nth_error_Some. congruence.
        - rewrite !nth_error_map, Hj1, Hj2. simpl. congruence. }
      congruence. }
  split; [exact Hnd|]. apply has_duplicates_NoDup in Hnd. split.
  - unfold pivot. rewrite Hnd. now eexists.
  - intros st Hst. unfold selected_state_growth. rewrite growth_with_unfold, Hnd.
    apply state_options_In, state_listed in Hst. rewrite Hst. now eexists.
Qed.

Lemma X14_load_data_unique_keys_witness :
  NoDup (map key (long_table [(0%nat, mkRecord "Goa" 2014 500); (1%nat, mkRecord "Goa" 2015 450)])) /\
  (exists fr,
     pivot (long_table [(0%nat, mkRecord "Goa" 2014 500); (1%nat, mkRecord "Goa" 2015 450)]) = Ok fr) /\
  (forall st,
     In st (state_options
              (long_table [(0%nat, mkRecord "Goa" 2014 500); (1%nat, mkRecord "Goa" 2015 450)])) ->
     exists out,
       selected_state_growth
         (long_table [(0%nat, mkRecord "Goa" 2014 500); (1%nat, mkRecord "Goa" 2015 450)]) st =
       Ok out).
Proof.
  apply (X14_load_data_unique_keys no_text_number sheet_goa
           [(0%nat, mkRecord "Goa" 2014 500); (1%nat, mkRecord "Goa" 2015 450)]).
  - reflexivity.
  - simpl. constructor; [intros [] | constructor].
  - simpl. constructor.
    + simpl. intros [H | [H | []]]; discriminate H.
    + constructor; [simpl; intros [H | []]; discriminate H|].
      constructor; [intros [] | constructor].
Defined.
